(** * Chunked video upload service (Django/core/services.py)

    A shallow embedding of [VideoService], [Storage] and of the admin
    entry point that feeds them, together with the properties of the
    upload life cycle.

    The Python code talks to two stores: the relational database, through
    the Django ORM, and the file system, through [os] and [shutil].  Both
    are explicit here: a method of the service is a function from the
    state of the two stores to a result (a value or an exception) and a
    new state.  An exception does not undo what was done before it; only
    [transaction.atomic] restores the database. *)

From stdpp Require Import gmap strings list pretty.

Local Open Scope Z_scope.

(* ===================================================================== *)
(** ** core.models *)
(* ===================================================================== *)

Module Models.

(** Modelled from the spec: the enumeration [VideoMedia.Status] of
    core/models.py, which is not among the sources.  The spec lists four
    legal values; the service names three of them
    ([UPLOADED_STARTED], which the spec calls UPLOAD_IN_PROGRESS,
    [PROCESS_STARTED] and [PROCESS_FINISHED]) and never assigns the
    fourth. *)
Inductive Status :=
| UPLOAD_STARTED
| UPLOADED_STARTED
| PROCESS_STARTED
| PROCESS_FINISHED.

#[global] Instance Status_eq_dec : EqDecision Status.
Proof. solve_decision. Defined.

(** Modelled from the spec: a row of the [Video] table.  The service
    reads and writes only [is_published]; the key of the row is the
    video id. *)
Record Video := mkVideo { is_published : bool }.

(** Modelled from the spec: a row of the [VideoMedia] table, keyed by the
    id of its video (a one-to-one relation: [video.video_media]). *)
Record VideoMedia := mkVideoMedia {
  status : Status;
  video_path : string
}.

(** The database: both tables keyed by video id.  The key of
    [video_medias] is the unique index of the one-to-one relation. *)
Record DB := mkDB {
  videos : gmap Z Video;
  video_medias : gmap Z VideoMedia
}.

End Models.
Export Models.

(* ===================================================================== *)
(** ** Exceptions *)
(* ===================================================================== *)

Module Exceptions.

Inductive Errno := ENOENT | EEXIST | ENOTDIR | EISDIR.

(** The exceptions the service raises or lets through.  Those of
    services.py carry the message they are raised with. *)
Inductive Exn :=
| Video_DoesNotExist
| RelatedObjectDoesNotExist
| VideoMedia_DoesNotExist
| IntegrityError
| TransactionManagementError
| VideoMediaInvalidStatusException (msg : string)
| VideoMediaNotExistsException (msg : string)
| VideoChunkUploadException (msg : string)
| OSError (errno : Errno) (filename : string)
| shutil_Error (msg : string).

Inductive Result (A : Type) :=
| Return (a : A)
| Raise (e : Exn).
Arguments Return {A} a.
Arguments Raise {A} e.

End Exceptions.
Export Exceptions.

(* ===================================================================== *)
(** ** os.path and the file system *)
(* ===================================================================== *)

Module Posix.

Definition bytes := list Byte.byte.

Definition is_slash (c : Ascii.ascii) : bool := bool_decide (String c "" = "/").

Definition starts_with_slash (s : string) : bool :=
  match s with
  | String c _ => is_slash c
  | EmptyString => false
  end.

Fixpoint ends_with_slash (s : string) : bool :=
  match s with
  | EmptyString => false
  | String c EmptyString => is_slash c
  | String _ s' => ends_with_slash s'
  end.

(** [posixpath.join] for two arguments. *)
Definition join (a b : string) : string :=
  if starts_with_slash b then b
  else if bool_decide (a = "") || ends_with_slash a then a +:+ b
  else a +:+ "/" +:+ b.

(** The names between the slashes of a path, [cur] being the name read
    so far. *)
Fixpoint split_slash (s cur : string) : list string :=
  match s with
  | EmptyString => if bool_decide (cur = "") then [] else [cur]
  | String c s' =>
      if is_slash c
      then (if bool_decide (cur = "") then [] else [cur]) ++ split_slash s' ""
      else split_slash s' (cur +:+ String c "")
  end.

(** A path is resolved from the root, one name at a time; empty names
    and ["."] are dropped.  Relative paths are taken from the root,
    [".."] and symbolic links are not interpreted. *)
Definition components (s : string) : list string :=
  filter (λ n, n ≠ ".") (split_slash s "").

Definition basename (s : string) : string := default "" (last (components s)).

Inductive Node :=
| File (content : bytes)
| Dir.

(** The file system: the node found at each resolved path.  The root is
    a directory and has no entry of its own. *)
Abbreviation FS := (gmap (list string) Node).

Definition node_at (fs : FS) (p : list string) : option Node :=
  match p with
  | [] => Some Dir
  | _ => fs !! p
  end.

(** [os.path.exists], [os.path.isfile], [os.path.isdir]: the empty path
    names nothing.  A path is looked up by its names alone: a slash or
    a ["."] after the last name is not told apart, so that the paths
    this holds for are those that end in a name, as every path the
    service builds does. *)
Definition stat (fs : FS) (s : string) : option Node :=
  if bool_decide (s = "") then None else node_at fs (components s).

Definition path_exists (fs : FS) (s : string) : bool :=
  match stat fs s with Some _ => true | None => false end.

Definition isfile (fs : FS) (s : string) : bool :=
  match stat fs s with Some (File _) => true | _ => false end.

Definition isdir (fs : FS) (s : string) : bool :=
  match stat fs s with Some Dir => true | _ => false end.

(** The names of the entries of the directory at [p]. *)
Definition children (fs : FS) (p : list string) : list string :=
  omap (λ k, if bool_decide (k ≠ [] ∧ removelast k = p) then last k else None)
       (map_to_list fs).*1.

(** The path of the names [p], spelled as [os.path.split] leaves it for
    a name without empty or ["."] parts: absolute when [name] is. *)
Fixpoint join_names (p : list string) : string :=
  match p with
  | [] => ""
  | [n] => n
  | n :: rest => n +:+ "/" +:+ join_names rest
  end.

Definition path_to (name : string) (p : list string) : string :=
  (if starts_with_slash name then "/" else "") +:+ join_names p.

(** [os.makedirs(name, exist_ok=...)], walking down from the directory
    [pre]: a missing directory is created, an existing one is entered,
    a regular file on the way stops the walk at the [mkdir] of the
    directory below it, which is the path the error carries.  Only the
    last name may raise [EEXIST], for [name] itself. *)
Fixpoint makedirs_from (exist_ok : bool) (name : string) (fs : FS)
    (pre rest : list string) : Result FS :=
  match rest with
  | [] => Return fs
  | c :: rest' =>
      let p := pre ++ [c] in
      match fs !! p, rest' with
      | None, _ => makedirs_from exist_ok name (<[p:=Dir]> fs) p rest'
      | Some Dir, [] =>
          if exist_ok then Return fs else Raise (OSError EEXIST name)
      | Some Dir, _ => makedirs_from exist_ok name fs p rest'
      | Some (File _), [] => Raise (OSError EEXIST name)
      | Some (File _), c' :: _ => Raise (OSError ENOTDIR (path_to name (p ++ [c'])))
      end
  end.

Definition makedirs (name : string) (exist_ok : bool) (fs : FS) : Result FS :=
  if bool_decide (name = "") then Raise (OSError ENOENT name)
  else match components name with
       | [] => if exist_ok then Return fs else Raise (OSError EEXIST name)
       | comps => makedirs_from exist_ok name fs [] comps
       end.

(** [with open(name, 'wb') as f: f.write(data)]: the file is created or
    truncated in an existing directory. *)
Definition write_file (name : string) (data : bytes) (fs : FS) : Result FS :=
  let p := components name in
  match p with
  | [] => Raise (OSError (if bool_decide (name = "") then ENOENT else EISDIR) name)
  | _ =>
      match node_at fs (removelast p) with
      | Some Dir =>
          match fs !! p with
          | Some Dir => Raise (OSError EISDIR name)
          | _ => Return (<[p:=File data]> fs)
          end
      | Some (File _) => Raise (OSError ENOTDIR name)
      | None => Raise (OSError ENOENT name)
      end
  end.

(** [os.listdir(name)]. *)
Definition listdir (name : string) (fs : FS) : Result (list string) :=
  match stat fs name with
  | Some Dir => Return (children fs (components name))
  | Some (File _) => Raise (OSError ENOTDIR name)
  | None => Raise (OSError ENOENT name)
  end.

(** [os.rename(src, dst)] of a regular file, within one device.  The
    service renames regular files only (see [move_chunks]); a directory
    as source is answered with [EISDIR]. *)
Definition rename (src dst : string) (fs : FS) : Result FS :=
  match stat fs src with
  | Some (File data) =>
      let q := components dst in
      match q with
      | [] => Raise (OSError (if bool_decide (dst = "") then ENOENT else EISDIR) dst)
      | _ =>
          match node_at fs (removelast q) with
          | Some Dir =>
              match fs !! q with
              | Some Dir => Raise (OSError EISDIR dst)
              | _ => Return (<[q:=File data]> (delete (components src) fs))
              end
          | Some (File _) => Raise (OSError ENOTDIR dst)
          | None => Raise (OSError ENOENT dst)
          end
      end
  | Some Dir => Raise (OSError EISDIR src)
  | None => Raise (OSError ENOENT src)
  end.

(** [shutil.move(src, dst)]: a destination that is a directory receives
    the file under its own name, unless that name is taken there. *)
Definition shutil_move (src dst : string) (fs : FS) : Result FS :=
  if isdir fs dst then
    let real_dst := join dst (basename src) in
    if path_exists fs real_dst
    then Raise (shutil_Error ("Destination path '" +:+ real_dst +:+ "' already exists"))
    else rename src real_dst fs
  else rename src dst fs.

End Posix.
Export Posix.

(* ===================================================================== *)
(** ** The state of a request and the monad of the service *)
(* ===================================================================== *)

Module Runtime.

(** What the code prints: the three messages of [move_chunks], kept as
    the values their f-strings are built from, and the traceback the
    admin view prints. *)
Inductive Event :=
| Moved (source_path filename dest_path : string)
| MoveFailed (source_path filename : string) (e : Exn)
| NotAFile (file_path : string)
| Traceback (e : Exn).

(** What outlives a request: database, file system, console. *)
Record World := mkWorld {
  db : DB;
  fs : gmap (list string) Node;
  console : list Event
}.

(** The database connection of a request.  [tx] is [None] in autocommit
    mode and, inside [transaction.atomic], holds the database a rollback
    returns to.  [needs_rollback] is Django's flag of the same name. *)
Record Conn := mkConn {
  tx : option DB;
  needs_rollback : bool
}.

Definition idle : Conn := mkConn None false.

Record St := mkSt {
  conn : Conn;
  world : World
}.

Definition M (A : Type) : Type := St → Result A * St.

#[global] Instance M_ret : MRet M := λ A a s, (Return a, s).

#[global] Instance M_bind : MBind M := λ A B f m s,
  match m s with
  | (Return a, s') => f a s'
  | (Raise e, s') => (Raise e, s')
  end.

Definition raise {A} (e : Exn) : M A := λ s, (Raise e, s).
Definition pass : M unit := mret ().

(** [try: body  except ...: handler]; [handler e = None] when no clause
    matches [e]. *)
Definition try_except {A} (body : M A) (handler : Exn → option (M A)) : M A :=
  λ s,
    match body s with
    | (Return a, s') => (Return a, s')
    | (Raise e, s') =>
        match handler e with
        | Some h => h s'
        | None => (Raise e, s')
        end
    end.

(** [for x in xs: body(x)] *)
Fixpoint for_each {A} (xs : list A) (body : A → M unit) : M unit :=
  match xs with
  | [] => pass
  | x :: xs' => body x ;; for_each xs' body
  end.

(** A request runs on a fresh connection. *)
Definition exec {A} (m : M A) (w : World) : Result A * World :=
  let '(r, s) := m (mkSt idle w) in (r, world s).

Definition set_db (d : DB) (w : World) : World := mkWorld d (fs w) (console w).
Definition set_fs (f : gmap (list string) Node) (w : World) : World :=
  mkWorld (db w) f (console w).

Definition print (ev : Event) : M unit := λ s,
  (Return (), mkSt (conn s) (mkWorld (db (world s)) (fs (world s)) (console (world s) ++ [ev]))).

(** *** File system calls *)

Definition read_fs {A} (f : gmap (list string) Node → A) : M A := λ s,
  (Return (f (fs (world s))), s).

Definition update_fs (f : gmap (list string) Node → Result (gmap (list string) Node)) : M unit :=
  λ s,
    match f (fs (world s)) with
    | Return fs' => (Return (), mkSt (conn s) (set_fs fs' (world s)))
    | Raise e => (Raise e, s)
    end.

Definition os_path_exists (name : string) : M bool :=
  read_fs (λ fs, path_exists fs name).
Definition os_path_isfile (name : string) : M bool :=
  read_fs (λ fs, isfile fs name).
Definition os_makedirs (name : string) (exist_ok : bool) : M unit :=
  update_fs (makedirs name exist_ok).
Definition open_wb_write (name : string) (data : bytes) : M unit :=
  update_fs (write_file name data).
Definition os_listdir (name : string) : M (list string) := λ s,
  match listdir name (fs (world s)) with
  | Return names => (Return names, s)
  | Raise e => (Raise e, s)
  end.
Definition shutil_move_m (src dst : string) : M unit :=
  update_fs (shutil_move src dst).

(** *** django.db *)

(** Every query starts with Django's [validate_no_broken_transaction]:
    once a statement has failed inside an atomic block, nothing more
    can be run before the block ends. *)
Definition validate_no_broken_transaction : M unit := λ s,
  if needs_rollback (conn s) then (Raise TransactionManagementError, s)
  else (Return (), s).

Definition get_db : M DB := λ s, (Return (db (world s)), s).
Definition modify_db (f : DB → DB) : M unit := λ s,
  (Return (), mkSt (conn s) (set_db (f (db (world s))) (world s))).
Definition of_result {A} (r : Result A) : M A := λ s, (r, s).

Definition read_db {A} (f : DB → Result A) : M A :=
  validate_no_broken_transaction ;; d ← get_db; of_result (f d).

Definition write_db (f : DB → DB) : M unit :=
  validate_no_broken_transaction ;; modify_db f.

(** A statement that fails while saving marks the enclosing atomic
    block for rollback ([mark_for_rollback_on_error] in [Model.save]). *)
Definition mark_for_rollback_on_error {A} (e : Exn) : M A := λ s,
  match tx (conn s) with
  | Some d => (Raise e, mkSt (mkConn (Some d) true) (world s))
  | None => (Raise e, s)
  end.

(** [with transaction.atomic(): body], the outermost block (the service
    never nests them): the database changes of [body] are kept when it
    ends normally and dropped when it ends with an exception or marked
    for rollback.  The file system and the console are not restored. *)
Definition atomic {A} (body : M A) : M A := λ s,
  let '(r, s') := body (mkSt (mkConn (Some (db (world s))) false) (world s)) in
  let rolled_back :=
    mkSt (conn s) (set_db (default (db (world s')) (tx (conn s'))) (world s')) in
  let committed := mkSt (conn s) (world s') in
  match r with
  | Return a => (Return a, if needs_rollback (conn s') then rolled_back else committed)
  | Raise e => (Raise e, rolled_back)
  end.

(** Another request commits [f] while this one is running: the change
    shows in the database and survives a rollback of this request. *)
Definition concurrent_commit (f : DB → DB) : M unit := λ s,
  (Return (),
   mkSt (mkConn (f <$> tx (conn s)) (needs_rollback (conn s)))
        (set_db (f (db (world s))) (world s))).

(** [Video.objects.get(id=video_id)] *)
Definition Video_objects_get (video_id : Z) : M Video :=
  read_db (λ d, match videos d !! video_id with
                | Some v => Return v
                | None => Raise Video_DoesNotExist
                end).

(** [video.save()] *)
Definition Video_save (video_id : Z) (video : Video) : M unit :=
  write_db (λ d, mkDB (<[video_id:=video]> (videos d)) (video_medias d)).

(** [video.video_media], the reverse side of the one-to-one relation. *)
Definition Video_video_media (video_id : Z) : M VideoMedia :=
  read_db (λ d, match video_medias d !! video_id with
                | Some vm => Return vm
                | None => Raise RelatedObjectDoesNotExist
                end).

(** [VideoMedia.objects.get(video=video)] *)
Definition VideoMedia_objects_get (video_id : Z) : M VideoMedia :=
  read_db (λ d, match video_medias d !! video_id with
                | Some vm => Return vm
                | None => Raise VideoMedia_DoesNotExist
                end).

Definition insert_video_media (video_id : Z) (vm : VideoMedia) (d : DB) : DB :=
  mkDB (videos d) (<[video_id:=vm]> (video_medias d)).

(** [VideoMedia.objects.create(video=video, status=..., video_path=...)]:
    the insert fails on the unique index when the video has a row. *)
Definition VideoMedia_objects_create (video_id : Z) (st : Status) (path : string)
    : M VideoMedia :=
  validate_no_broken_transaction ;;
  d ← get_db;
  match video_medias d !! video_id with
  | Some _ => mark_for_rollback_on_error IntegrityError
  | None =>
      let vm := mkVideoMedia st path in
      write_db (insert_video_media video_id vm) ;; mret vm
  end.

(** [video_media.save()] *)
Definition VideoMedia_save (video_id : Z) (vm : VideoMedia) : M unit :=
  write_db (insert_video_media video_id vm).

End Runtime.
Export Runtime.

(* ===================================================================== *)
(** ** core.services *)
(* ===================================================================== *)

Module Storage.

Definition chunk_name (chunk_index : Z) : string := pretty chunk_index +:+ ".chunk".

Definition storage_chunk (directory : string) (chunk_index : Z) (chunk : bytes)
    : M unit :=
  present ← os_path_exists directory;
  (if negb present then os_makedirs directory false else pass) ;;
  let chunk_path := join directory (chunk_name chunk_index) in
  open_wb_write chunk_path chunk.

(** The body of the loop of [move_chunks]. *)
Definition move_chunk (source_path dest_path filename : string) : M unit :=
  let file_path := join source_path filename in
  regular ← os_path_isfile file_path;
  if (regular : bool) then
    try_except
      (shutil_move_m file_path (join dest_path filename) ;;
       print (Moved source_path filename dest_path))
      (λ e, Some (print (MoveFailed source_path filename e)))
  else print (NotAFile file_path).

Definition move_chunks (source_path dest_path : string) : M unit :=
  present ← os_path_exists dest_path;
  (if negb present then os_makedirs dest_path true else pass) ;;
  filenames ← os_listdir source_path;
  for_each filenames (move_chunk source_path dest_path).

End Storage.
Export Storage.

(** A [Video] or [VideoMedia] object of the Python code is its row here;
    the id of the video, which the object carries, is passed next to it.
    [Storage] has no field, so the [storage] attribute of the service is
    left out and its two methods are called directly. *)
Module VideoService.

Definition get_chunk_directory (video_id : Z) : string :=
  "/tmp/videos/" +:+ pretty video_id.

Definition find_video (video_id : Z) : M Video := Video_objects_get video_id.

(** The row a request creates for a video that has none. *)
Definition fresh_video_media (video_id : Z) : VideoMedia :=
  mkVideoMedia UPLOADED_STARTED (get_chunk_directory video_id).

(** What a concurrent [process_upload] for the same video commits when
    it gets to create the row first. *)
Definition concurrent_creator (video_id : Z) (d : DB) : DB :=
  match video_medias d !! video_id with
  | Some _ => d
  | None => insert_video_media video_id (fresh_video_media video_id) d
  end.

(** [race] tells whether a concurrent creator commits between the
    failed look-up and the insert; the sequential run has
    [race = false]. *)
Definition __prepare_video_media (race : bool) (video_id : Z) : M VideoMedia :=
  try_except (Video_video_media video_id)
    (λ e, match e with
          | RelatedObjectDoesNotExist => Some (
              (if race then concurrent_commit (concurrent_creator video_id)
               else pass) ;;
              try_except
                (VideoMedia_objects_create video_id UPLOADED_STARTED
                   (get_chunk_directory video_id))
                (λ e', match e' with
                       | IntegrityError => Some (VideoMedia_objects_get video_id)
                       | _ => None
                       end))
          | _ => None
          end).

Definition process_upload (race : bool) (video_id chunk_index : Z) (chunk : bytes)
    : M unit :=
  video ← find_video video_id;
  let directory := get_chunk_directory video_id in
  atomic (
    video_media ← __prepare_video_media race video_id;
    if decide (status video_media = PROCESS_STARTED) then
      raise (VideoMediaInvalidStatusException "An upload is already in progress.")
    else if decide (status video_media = UPLOADED_STARTED) then
      storage_chunk (video_path video_media) chunk_index chunk
    else
      video_media ←
        (if decide (status video_media = PROCESS_FINISHED) then
           Video_save video_id (mkVideo false) ;;
           mret (mkVideoMedia (status video_media) directory)
         else mret video_media);
      let video_media := mkVideoMedia UPLOADED_STARTED (video_path video_media) in
      VideoMedia_save video_id video_media ;;
      storage_chunk (video_path video_media) chunk_index chunk).

Definition range (n : Z) : list Z := Z.of_nat <$> seq 0 (Z.to_nat n).

(** The loop of [__validate_chunks], leaving at the first missing chunk. *)
Fixpoint chunks_exist (fs : gmap (list string) Node) (video_path : string)
    (indices : list Z) : bool :=
  match indices with
  | [] => true
  | i :: rest =>
      let chunk_path := join video_path (chunk_name i) in
      if negb (path_exists fs chunk_path) then false
      else chunks_exist fs video_path rest
  end.

Definition validate_chunks_in (fs : gmap (list string) Node) (video_path : string)
    (total_chunks : Z) : bool :=
  if negb (path_exists fs video_path) then false
  else chunks_exist fs video_path (range total_chunks).

Definition __validate_chunks (video_path : string) (total_chunks : Z) : M bool :=
  read_fs (λ fs, validate_chunks_in fs video_path total_chunks).

Definition finalize_upload (video_id total_chunks : Z) : M unit :=
  video ← find_video video_id;
  try_except
    (video_media ← Video_video_media video_id;
     if decide (status video_media ≠ UPLOADED_STARTED) then
       raise (VideoMediaInvalidStatusException "Upload must be started to finish it.")
     else
       is_chunks_valid ← __validate_chunks (video_path video_media) total_chunks;
       if negb is_chunks_valid then
         raise (VideoChunkUploadException "Chunks are invalid.")
       else
         VideoMedia_save video_id
           (mkVideoMedia PROCESS_STARTED (video_path video_media)))
    (λ e, match e with
          | RelatedObjectDoesNotExist =>
              Some (raise (VideoMediaNotExistsException "Upload not started."))
          | _ => None
          end).

Definition external_directory (video_id : Z) : string :=
  "/media/uploads/" +:+ pretty video_id.

Definition upload_chunks_to_external_storage (video_id : Z) : M unit :=
  find_video video_id ;;
  let source_path := get_chunk_directory video_id in
  let dest_path := external_directory video_id in
  move_chunks source_path dest_path.

Definition register_processed_video_path (video_id : Z) (video_path : string)
    : M unit :=
  video ← find_video video_id;
  video_media ← Video_video_media video_id;
  if decide (status video_media ≠ PROCESS_STARTED) then
    raise (VideoMediaInvalidStatusException "Processing must be started to finish it.")
  else
    VideoMedia_save video_id (mkVideoMedia PROCESS_FINISHED video_path).

End VideoService.
Export VideoService.

(* ===================================================================== *)
(** ** core.form and core.admin *)
(* ===================================================================== *)

Module Admin.

Definition MAX_VIDEO_CHUNK_SIZE : Z := 1 * 1024 * 1024.

(** An uploaded file: its size as the upload handler recorded it and
    what [read()] gives. *)
Record UploadedFile := mkUploadedFile {
  size : Z;
  read : bytes
}.

(** The fields of the POST of a chunk; [None] is a field left out. *)
Record ChunkUpload := mkChunkUpload {
  FILES_chunk : option UploadedFile;
  POST_chunkIndex : option Z
}.

Inductive FieldError :=
| required
| empty
| min_value (limit : Z)
| ValidationError (msg : string).

Record CleanedChunkUpload := mkCleaned {
  chunk : UploadedFile;
  chunkIndex : Z
}.

(** [VideoChunkUploadForm.clean_chunk] *)
Definition clean_chunk (chunk : UploadedFile) : FieldError + UploadedFile :=
  if decide (size chunk > MAX_VIDEO_CHUNK_SIZE)
  then inl (ValidationError "O arquivo deve ser um vídeo no formato MP4.")
  else inr chunk.

(** The field [chunk = forms.FileField(required=True)] followed by its
    [clean_chunk]: the field refuses a missing file and, as it does not
    allow an empty one, a file of no bytes ("The submitted file is
    empty."); [clean_chunk] is run on what the field has accepted. *)
Definition clean_field_chunk (raw : option UploadedFile) : FieldError + UploadedFile :=
  match raw with
  | None => inl required
  | Some f => if decide (size f = 0) then inl empty else clean_chunk f
  end.

(** The field [chunkIndex = forms.IntegerField(min_value=0, required=True)]. *)
Definition clean_field_chunkIndex (raw : option Z) : FieldError + Z :=
  match raw with
  | None => inl required
  | Some i => if decide (i < 0) then inl (min_value 0) else inr i
  end.

(** [form.is_valid()]: the errors by field, in the order of the fields,
    or the cleaned data. *)
Definition VideoChunkUploadForm (data : ChunkUpload)
    : list (string * FieldError) + CleanedChunkUpload :=
  match clean_field_chunk (FILES_chunk data), clean_field_chunkIndex (POST_chunkIndex data) with
  | inr c, inr i => inr (mkCleaned c i)
  | inl e, inr _ => inl [("chunk", e)]
  | inr _, inl e => inl [("chunkIndex", e)]
  | inl e1, inl e2 => inl [("chunk", e1); ("chunkIndex", e2)]
  end.

Inductive Body :=
| no_content
| error_form (errors : list (string * FieldError))
| error_text (msg : string)
| error_str (e : Exn).

Record JsonResponse := mkJsonResponse {
  body : Body;
  http_status : Z
}.

Definition _do_upload_video_chunks (race : bool) (request : ChunkUpload) (id : Z)
    : M JsonResponse :=
  match VideoChunkUploadForm request with
  | inl errors => mret (mkJsonResponse (error_form errors) 400)
  | inr cleaned_data =>
      try_except
        (process_upload race id (chunkIndex cleaned_data) (read (chunk cleaned_data)) ;;
         mret (mkJsonResponse no_content 204))
        (λ e, match e with
              | Video_DoesNotExist =>
                  Some (mret (mkJsonResponse (error_text "Vídeo não encontrado.") 404))
              | _ =>
                  Some (print (Traceback e) ;; mret (mkJsonResponse (error_str e) 500))
              end)
  end.

End Admin.
Export Admin.

(* ===================================================================== *)
(** ** The vocabulary of the properties *)
(* ===================================================================== *)

Module Props.

(** The status of the media record of a video, [None] without record. *)
Definition status_of (w : World) (video_id : Z) : option Status :=
  status <$> video_medias (db w) !! video_id.

(** The content of the regular file at a path. *)
Definition read_file (fs : gmap (list string) Node) (name : string) : option bytes :=
  match stat fs name with
  | Some (File data) => Some data
  | _ => None
  end.

(** The database once [vm] is saved for the video. *)
Definition saved (video_id : Z) (vm : VideoMedia) (w : World) : World :=
  set_db (insert_video_media video_id vm (db w)) w.

(** Every chunk file of [0 .. total_chunks - 1] is there. *)
Definition all_chunks_present (fs : gmap (list string) Node) (directory : string)
    (total_chunks : Z) : Prop :=
  ∀ i, 0 ≤ i < total_chunks → path_exists fs (join directory (chunk_name i)) = true.

(** The three operations of the life cycle; promotion is two calls in
    the code, the move of the files and the registration of the path. *)
Inductive Op :=
| SubmitChunk (race : bool) (chunk_index : Z) (chunk : bytes)
| FinalizeUpload (total_chunks : Z)
| PromoteFiles
| PromoteRecord (video_path : string).

Definition run_op (op : Op) (video_id : Z) : M unit :=
  match op with
  | SubmitChunk race chunk_index chunk => process_upload race video_id chunk_index chunk
  | FinalizeUpload total_chunks => finalize_upload video_id total_chunks
  | PromoteFiles => upload_chunks_to_external_storage video_id
  | PromoteRecord video_path => register_processed_video_path video_id video_path
  end.

(** The worlds the service can bring about: it starts without media
    records, every call, failed or not, leaves a reachable world, and so
    does whatever happens outside the service to the videos, the files
    and the console. *)
Inductive reachable : World → Prop :=
| reachable_init w :
    video_medias (db w) = ∅ → reachable w
| reachable_step w op video_id :
    reachable w → reachable (exec (run_op op video_id) w).2
| reachable_outside w w' :
    reachable w → video_medias (db w') = video_medias (db w) → reachable w'.

(** The edges of the state machine, by operation. *)
Inductive edge : Op → option Status → option Status → Prop :=
| edge_create race i c :
    edge (SubmitChunk race i c) None (Some UPLOADED_STARTED)
| edge_accumulate race i c :
    edge (SubmitChunk race i c) (Some UPLOADED_STARTED) (Some UPLOADED_STARTED)
| edge_reupload race i c :
    edge (SubmitChunk race i c) (Some PROCESS_FINISHED) (Some UPLOADED_STARTED)
| edge_finalize n :
    edge (FinalizeUpload n) (Some UPLOADED_STARTED) (Some PROCESS_STARTED)
| edge_promote p :
    edge (PromoteRecord p) (Some PROCESS_STARTED) (Some PROCESS_FINISHED).

(** How far a record is in its life cycle. *)
Definition rank (st : option Status) : Z :=
  match st with
  | None => 0
  | Some UPLOAD_STARTED => 1
  | Some UPLOADED_STARTED => 2
  | Some PROCESS_STARTED => 3
  | Some PROCESS_FINISHED => 4
  end.

(** What a best-effort relocation of the entries [names] does, one entry
    after the other: it moves the regular file and says so, or fails to
    move it, says so and leaves the file system as it is, or says that
    the entry is not a file; in each case it goes on with the rest. *)
Inductive relocating (source_path dest_path : string)
    : gmap (list string) Node → list string → gmap (list string) Node → list Event → Prop :=
| relocating_done fs :
    relocating source_path dest_path fs [] fs []
| relocating_moved fs fs1 fs2 name names log :
    isfile fs (join source_path name) = true →
    shutil_move (join source_path name) (join dest_path name) fs = Return fs1 →
    relocating source_path dest_path fs1 names fs2 log →
    relocating source_path dest_path fs (name :: names) fs2
      (Moved source_path name dest_path :: log)
| relocating_failed fs fs2 name names e log :
    isfile fs (join source_path name) = true →
    shutil_move (join source_path name) (join dest_path name) fs = Raise e →
    relocating source_path dest_path fs names fs2 log →
    relocating source_path dest_path fs (name :: names) fs2
      (MoveFailed source_path name e :: log)
| relocating_skipped fs fs2 name names log :
    isfile fs (join source_path name) = false →
    relocating source_path dest_path fs names fs2 log →
    relocating source_path dest_path fs (name :: names) fs2
      (NotAFile (join source_path name) :: log).


(** A computation seen from the file system alone: its result and the
    file system it leaves. *)
Definition on_fs {A} (m : M A) (fs : gmap (list string) Node)
    : Result A * gmap (list string) Node :=
  let '(r, w) := exec m (mkWorld (mkDB ∅ ∅) fs []) in (r, Runtime.fs w).

End Props.
Export Props.

(* ===================================================================== *)
(** ** Sample worlds *)
(* ===================================================================== *)

Module Samples.

Definition payload : bytes := [Byte.x00; Byte.x01; Byte.x02].

(** [/tmp/videos/42] holding the chunks 0 and 1. *)
Definition two_chunks : gmap (list string) Node :=
  <[ ["tmp"; "videos"; "42"; "1.chunk"] := File payload ]>
  (<[ ["tmp"; "videos"; "42"; "0.chunk"] := File payload ]>
  (<[ ["tmp"; "videos"; "42"] := Dir ]>
  (<[ ["tmp"; "videos"] := Dir ]>
  (<[ ["tmp"] := Dir ]> ∅)))).

Definition world_of (st : option VideoMedia) (fs : gmap (list string) Node) : World :=
  mkWorld (mkDB {[ 42 := mkVideo true ]}
                (match st with Some vm => {[ 42 := vm ]} | None => ∅ end))
          fs [].

(** Video 42 without media record. *)
Definition w_new : World := world_of None ∅.

(** Video 42 while its chunks come in. *)
Definition w_uploading : World :=
  world_of (Some (mkVideoMedia UPLOADED_STARTED "/tmp/videos/42")) two_chunks.

(** The same record, nothing written yet. *)
Definition w_uploading_nothing : World :=
  world_of (Some (mkVideoMedia UPLOADED_STARTED "/tmp/videos/42")) ∅.

(** Video 42 once the upload is finalized. *)
Definition w_processing : World :=
  world_of (Some (mkVideoMedia PROCESS_STARTED "/tmp/videos/42")) two_chunks.

(** Video 42 processed and published. *)
Definition w_finished : World :=
  world_of (Some (mkVideoMedia PROCESS_FINISHED "/media/uploads/42/video.mpd")) ∅.

(** A chunk directory with a chunk that can be moved, a subdirectory,
    and a chunk whose place in the destination is taken. *)
Definition crowded : gmap (list string) Node :=
  <[ ["media"; "uploads"; "42"; "1.chunk"; "1.chunk"] := File payload ]>
  (<[ ["media"; "uploads"; "42"; "1.chunk"] := Dir ]>
  (<[ ["media"; "uploads"; "42"] := Dir ]>
  (<[ ["media"; "uploads"] := Dir ]>
  (<[ ["media"] := Dir ]>
  (<[ ["tmp"; "videos"; "42"; "parts"] := Dir ]> two_chunks))))).

Definition w_crowded : World :=
  world_of (Some (mkVideoMedia PROCESS_STARTED "/tmp/videos/42")) crowded.

(** A chunk of two MiB. *)
Definition big_chunk : UploadedFile := mkUploadedFile (2 * 1024 * 1024) payload.

End Samples.

(* ===================================================================== *)
(** ** core.admin: the end of an upload *)
(* ===================================================================== *)

Module AdminFinish.

(** The POST that ends an upload.  [fileName] is the posted field as
    [forms.CharField(max_length=255, required=True)] cleans it, the
    error it raises or the cleaned text: the view looks at nothing else
    of it.  [None] is a field left out. *)
Record FinishUpload := mkFinishUpload {
  method : string;
  fileName : FieldError + string;
  POST_totalChunks : option Z
}.

Record CleanedFinishUpload := mkCleanedFinish {
  cleaned_fileName : string;
  totalChunks : Z
}.

(** The field [totalChunks = forms.IntegerField(min_value=1, required=True)]. *)
Definition clean_field_totalChunks (raw : option Z) : FieldError + Z :=
  match raw with
  | None => inl required
  | Some n => if decide (n < 1) then inl (min_value 1) else inr n
  end.

(** [VideoChunkFinishUploadForm(request.POST).is_valid()] *)
Definition VideoChunkFinishUploadForm (data : FinishUpload)
    : list (string * FieldError) + CleanedFinishUpload :=
  match fileName data, clean_field_totalChunks (POST_totalChunks data) with
  | inr name, inr n => inr (mkCleanedFinish name n)
  | inl e, inr _ => inl [("fileName", e)]
  | inr _, inl e => inl [("totalChunks", e)]
  | inl e1, inl e2 => inl [("fileName", e1); ("totalChunks", e2)]
  end.

(** What [message_user] queues on the request. *)
Inductive Level := SUCCESS.

(** [finish_upload_video_view]: the response and the messages queued on
    the request; [str(e)] of an exception of the service is the message
    it was raised with. *)
Definition finish_upload_video_view (request : FinishUpload) (id : Z)
    : M (JsonResponse * list (Level * string)) :=
  if bool_decide (method request ≠ "POST") then
    mret (mkJsonResponse (error_text "Método não permitido.") 405, [])
  else
    match VideoChunkFinishUploadForm request with
    | inl errors => mret (mkJsonResponse (error_form errors) 400, [])
    | inr cleaned_data =>
        try_except
          (finalize_upload id (totalChunks cleaned_data) ;;
           mret (mkJsonResponse no_content 204,
                 [(SUCCESS, "Upload realizado com sucesso.")]))
          (λ e, match e with
                | Video_DoesNotExist =>
                    Some (mret (mkJsonResponse (error_text "Vídeo não encontrado.") 404, []))
                | VideoMediaNotExistsException msg
                | VideoMediaInvalidStatusException msg
                | VideoChunkUploadException msg =>
                    Some (mret (mkJsonResponse (error_text msg) 400, []))
                | _ => None
                end)
    end.

End AdminFinish.
Export AdminFinish.

(* ===================================================================== *)
(** ** More vocabulary *)
(* ===================================================================== *)

Module Requests.

(** No slash in a name. *)
Fixpoint slash_free (s : string) : bool :=
  match s with
  | EmptyString => true
  | String c s' => negb (is_slash c) && slash_free s'
  end.

(** A name as a directory lists it: not empty, without slash, not ["."]. *)
Definition plain_name (name : string) : Prop :=
  slash_free name = true ∧ name ≠ "" ∧ name ≠ ".".



(** The media record of a video. *)
Definition media_of (w : World) (video_id : Z) : option VideoMedia :=
  video_medias (db w) !! video_id.

(** The world after a series of chunk submissions, one request each and
    without interference, when all of them are accepted. *)
Fixpoint after_uploads (video_id : Z) (chunks : list (Z * bytes)) (w : World)
    : option World :=
  match chunks with
  | [] => Some w
  | (chunk_index, chunk) :: rest =>
      match exec (process_upload false video_id chunk_index chunk) w with
      | (Return _, w') => after_uploads video_id rest w'
      | (Raise _, _) => None
      end
  end.

(** The records of uploads in progress point to the chunk directory of
    their video. *)
Definition paths_in_place (w : World) : Prop :=
  ∀ video_id vm,
    video_medias (db w) !! video_id = Some vm →
    status vm = UPLOADED_STARTED ∨ status vm = PROCESS_STARTED →
    video_path vm = get_chunk_directory video_id.

End Requests.
Export Requests.

Module MoreSamples.

(** A file where the chunk directory of video 42 should be. *)
Definition blocked : gmap (list string) Node :=
  <[ ["tmp"; "videos"; "42"] := File Samples.payload ]>
  (<[ ["tmp"; "videos"] := Dir ]>
  (<[ ["tmp"] := Dir ]> ∅)).

Definition other_payload : bytes := [Byte.xff; Byte.xfe].

End MoreSamples.

(* ===================================================================== *)
(** ** Running the monad *)
(* ===================================================================== *)

Section Run.
Context {A B : Type}.

Lemma run_bind (m : M A) (k : A → M B) s :
  (m ≫= k) s = match m s with
               | (Return a, s') => k a s'
               | (Raise e, s') => (Raise e, s')
               end.
Proof. reflexivity. Qed.

End Run.

Lemma world_eta w : mkWorld (db w) (fs w) (console w) = w.
Proof. by destruct w. Qed.

Lemma set_db_same w : set_db (db w) w = w.
Proof. apply world_eta. Qed.

Lemma db_eta d : mkDB (videos d) (video_medias d) = d.
Proof. by destruct d. Qed.

(** The queries of a healthy connection. *)
Section Queries.
Variables (c : Conn) (w : World).
Hypothesis healthy : needs_rollback c = false.

Lemma run_find_video video_id :
  find_video video_id (mkSt c w) =
    (match videos (db w) !! video_id with
     | Some v => Return v
     | None => Raise Video_DoesNotExist
     end, mkSt c w).
Proof.
  unfold find_video, Video_objects_get, read_db, validate_no_broken_transaction.
  rewrite run_bind. simpl. rewrite healthy. reflexivity.
Qed.

Lemma run_video_media video_id :
  Video_video_media video_id (mkSt c w) =
    (match video_medias (db w) !! video_id with
     | Some vm => Return vm
     | None => Raise RelatedObjectDoesNotExist
     end, mkSt c w).
Proof.
  unfold Video_video_media, read_db, validate_no_broken_transaction.
  rewrite run_bind. simpl. rewrite healthy. reflexivity.
Qed.

Lemma run_video_media_save video_id vm :
  VideoMedia_save video_id vm (mkSt c w) =
    (Return (), mkSt c (set_db (insert_video_media video_id vm (db w)) w)).
Proof.
  unfold VideoMedia_save, write_db, validate_no_broken_transaction.
  rewrite run_bind. simpl. rewrite healthy. reflexivity.
Qed.

Lemma run_video_save video_id v :
  Video_save video_id v (mkSt c w) =
    (Return (),
     mkSt c (set_db (mkDB (<[video_id:=v]> (videos (db w))) (video_medias (db w))) w)).
Proof.
  unfold Video_save, write_db, validate_no_broken_transaction.
  rewrite run_bind. simpl. rewrite healthy. reflexivity.
Qed.

End Queries.

(* ===================================================================== *)
(** ** Chunk validation *)
(* ===================================================================== *)

Lemma elem_of_range n i : i ∈ range n ↔ 0 ≤ i < n.
Proof.
  unfold range. rewrite list_elem_of_fmap. split.
  - intros (k & -> & Hk). apply elem_of_seq in Hk. lia.
  - intros Hi. exists (Z.to_nat i). split; [lia|]. apply elem_of_seq. lia.
Qed.

Lemma chunks_exist_spec fs directory indices :
  chunks_exist fs directory indices = true ↔
  ∀ i, i ∈ indices → path_exists fs (join directory (chunk_name i)) = true.
Proof.
  induction indices as [|i rest IH]; simpl.
  - split; [|done]. intros _ i Hi. by apply elem_of_nil in Hi.
  - destruct (path_exists fs (join directory (chunk_name i))) eqn:Hi; simpl.
    + rewrite IH. split.
      * intros Hrest j Hj. apply elem_of_cons in Hj as [->|Hj]; auto.
      * intros Hall j Hj. apply Hall. by apply elem_of_cons; right.
    + split; [done|]. intros Hall.
      rewrite <- Hi. apply Hall. by apply elem_of_cons; left.
Qed.

Lemma validate_chunks_in_spec fs directory total_chunks :
  validate_chunks_in fs directory total_chunks = true ↔
  path_exists fs directory = true ∧ all_chunks_present fs directory total_chunks.
Proof.
  unfold validate_chunks_in, all_chunks_present.
  destruct (path_exists fs directory); simpl.
  - rewrite chunks_exist_spec. split.
    + intros H. split; [done|]. intros i Hi. by apply H, elem_of_range.
    + intros [_ H] i Hi. by apply H, elem_of_range.
  - split; [done|]. by intros [? _].
Qed.

Lemma validate_chunks_in_nonpositive fs directory total_chunks :
  total_chunks ≤ 0 →
  validate_chunks_in fs directory total_chunks = path_exists fs directory.
Proof.
  intros Hn. unfold validate_chunks_in, range.
  replace (Z.to_nat total_chunks) with 0%nat by lia.
  by destruct (path_exists fs directory).
Qed.

Lemma run_validate_chunks c w directory total_chunks :
  __validate_chunks directory total_chunks (mkSt c w) =
    (Return (validate_chunks_in (fs w) directory total_chunks), mkSt c w).
Proof. reflexivity. Qed.

(** C8, as the code has it: [__validate_chunks] never raises and answers
    true exactly when the directory exists and holds a chunk file for
    every index of [0, total_chunks).  An absent directory gives false,
    whatever the count. *)
Theorem validate_chunks_iff w directory total_chunks :
  ∃ b, exec (__validate_chunks directory total_chunks) w = (Return b, w) ∧
       (b = true ↔
        path_exists (fs w) directory = true ∧
        all_chunks_present (fs w) directory total_chunks).
Proof.
  exists (validate_chunks_in (fs w) directory total_chunks). split.
  - unfold exec. by rewrite run_validate_chunks.
  - apply validate_chunks_in_spec.
Qed.

(** C8 as stated fails: with no chunk asked for and no directory, every
    index of the empty range has its file, yet the answer is false. *)
Lemma validate_chunks_not_iff_all_present :
  ¬ (∀ w directory total_chunks,
       (exec (__validate_chunks directory total_chunks) w).1 = Return true ↔
       all_chunks_present (fs w) directory total_chunks).
Proof.
  intros H.
  specialize (H (mkWorld (mkDB ∅ ∅) ∅ []) "/tmp/videos/1" 0).
  destruct H as [_ H].
  assert (Hall : all_chunks_present (∅ : gmap (list string) Node) "/tmp/videos/1" 0)
    by (intros i Hi; lia).
  specialize (H Hall). vm_compute in H. discriminate H.
Qed.

(* ===================================================================== *)
(** ** finalize_upload *)
(* ===================================================================== *)

Lemma run_finalize_upload w video_id total_chunks v :
  videos (db w) !! video_id = Some v →
  exec (finalize_upload video_id total_chunks) w =
    match video_medias (db w) !! video_id with
    | None => (Raise (VideoMediaNotExistsException "Upload not started."), w)
    | Some vm =>
        if decide (status vm ≠ UPLOADED_STARTED) then
          (Raise (VideoMediaInvalidStatusException "Upload must be started to finish it."), w)
        else if validate_chunks_in (fs w) (video_path vm) total_chunks then
          (Return (), saved video_id (mkVideoMedia PROCESS_STARTED (video_path vm)) w)
        else (Raise (VideoChunkUploadException "Chunks are invalid."), w)
    end.
Proof.
  intros Hv. unfold exec, finalize_upload.
  rewrite run_bind, run_find_video, Hv by done.
  unfold try_except. rewrite run_bind, run_video_media by done.
  destruct (video_medias (db w) !! video_id) as [vm|]; [|done].
  destruct (decide (status vm ≠ UPLOADED_STARTED)); [done|].
  rewrite run_bind, run_validate_chunks.
  destruct (validate_chunks_in (fs w) (video_path vm) total_chunks);
    cbn [negb]; [|done].
  by rewrite run_video_media_save.
Qed.

(** C1, as the code has it: for a video that exists, [finalize_upload]
    fails with [VideoMediaNotExistsException] (UploadNotStarted) when the
    video has no media record, with [VideoMediaInvalidStatusException]
    (InvalidStatusTransition) when the status is not [UPLOADED_STARTED],
    and with [VideoChunkUploadException] (IncompleteChunkSet) when the
    directory of the record is absent or a chunk file of
    [0, total_chunks) is missing in it; each failure leaves the world as
    it was.  Otherwise the status becomes [PROCESS_STARTED] and is
    saved. *)
Theorem finalize_upload_cases w video_id total_chunks v :
  videos (db w) !! video_id = Some v →
  (video_medias (db w) !! video_id = None →
   exec (finalize_upload video_id total_chunks) w =
     (Raise (VideoMediaNotExistsException "Upload not started."), w)) ∧
  (∀ vm, video_medias (db w) !! video_id = Some vm →
     (status vm ≠ UPLOADED_STARTED →
      exec (finalize_upload video_id total_chunks) w =
        (Raise (VideoMediaInvalidStatusException "Upload must be started to finish it."), w)) ∧
     (status vm = UPLOADED_STARTED →
      (path_exists (fs w) (video_path vm) = false ∨
       ∃ i, 0 ≤ i < total_chunks ∧
            path_exists (fs w) (join (video_path vm) (chunk_name i)) = false) →
      exec (finalize_upload video_id total_chunks) w =
        (Raise (VideoChunkUploadException "Chunks are invalid."), w)) ∧
     (status vm = UPLOADED_STARTED →
      path_exists (fs w) (video_path vm) = true →
      all_chunks_present (fs w) (video_path vm) total_chunks →
      exec (finalize_upload video_id total_chunks) w =
        (Return (), saved video_id (mkVideoMedia PROCESS_STARTED (video_path vm)) w) ∧
      status_of (saved video_id (mkVideoMedia PROCESS_STARTED (video_path vm)) w) video_id
        = Some PROCESS_STARTED)).
Proof.
  intros Hv. rewrite (run_finalize_upload _ _ _ _ Hv). split.
  - by intros ->.
  - intros vm ->. split; [|split].
    + intros Hst. by rewrite decide_True.
    + intros Hst Hmissing. rewrite decide_False by (by intros []).
      destruct (validate_chunks_in (fs w) (video_path vm) total_chunks) eqn:Hvalid; [|done].
      apply validate_chunks_in_spec in Hvalid as [Hdir Hall].
      destruct Hmissing as [Hno|(i & Hi & Hno)]; [congruence|].
      specialize (Hall i Hi). congruence.
    + intros Hst Hdir Hall. rewrite decide_False by (by intros []).
      assert (Hvalid : validate_chunks_in (fs w) (video_path vm) total_chunks = true)
        by (by apply validate_chunks_in_spec).
      rewrite Hvalid. split; [done|].
      unfold status_of, saved, set_db, insert_video_media. simpl.
      by rewrite lookup_insert_eq.
Qed.

Lemma finalize_upload_cases_witness :
  videos (db Samples.w_uploading) !! 42 = Some (mkVideo true) ∧
  exec (finalize_upload 42 2) Samples.w_uploading =
    (Return (), saved 42 (mkVideoMedia PROCESS_STARTED "/tmp/videos/42") Samples.w_uploading).
Proof.
  split; [reflexivity|].
  destruct (finalize_upload_cases Samples.w_uploading 42 2 (mkVideo true) eq_refl)
    as [_ Hrec].
  destruct (Hrec (mkVideoMedia UPLOADED_STARTED "/tmp/videos/42") eq_refl)
    as (_ & _ & Hok).
  apply Hok; [reflexivity|reflexivity|].
  intros i Hi.
  assert (i = 0 ∨ i = 1) as [->| ->] by lia; reflexivity.
Defined.

(** C1 as stated fails: a started upload whose directory is absent and
    for which no chunk is asked has no chunk file missing, yet the
    finalization is refused. *)
Lemma finalize_upload_absent_directory :
  ¬ (∀ w video_id total_chunks v vm,
       videos (db w) !! video_id = Some v →
       video_medias (db w) !! video_id = Some vm →
       status vm = UPLOADED_STARTED →
       all_chunks_present (fs w) (video_path vm) total_chunks →
       (exec (finalize_upload video_id total_chunks) w).1 = Return ()).
Proof.
  intros H.
  specialize (H Samples.w_uploading_nothing 42 0 (mkVideo true)
                (mkVideoMedia UPLOADED_STARTED "/tmp/videos/42")
                eq_refl eq_refl eq_refl).
  assert (Hall : all_chunks_present (fs Samples.w_uploading_nothing) "/tmp/videos/42" 0)
    by (intros i Hi; lia).
  specialize (H Hall). vm_compute in H. discriminate H.
Qed.

(** C10: for a started upload whose directory exists, [finalize_upload]
    with a total of 0 chunks, or a negative one, succeeds and the status
    becomes [PROCESS_STARTED]: the service has no lower bound on the
    count and the loop over the chunks is not entered. *)
Theorem finalize_upload_without_chunks w video_id total_chunks v vm :
  videos (db w) !! video_id = Some v →
  video_medias (db w) !! video_id = Some vm →
  status vm = UPLOADED_STARTED →
  path_exists (fs w) (video_path vm) = true →
  total_chunks ≤ 0 →
  exec (finalize_upload video_id total_chunks) w =
    (Return (), saved video_id (mkVideoMedia PROCESS_STARTED (video_path vm)) w) ∧
  status_of (exec (finalize_upload video_id total_chunks) w).2 video_id
    = Some PROCESS_STARTED.
Proof.
  intros Hv Hvm Hst Hdir Hn.
  rewrite (run_finalize_upload _ _ _ _ Hv), Hvm.
  rewrite decide_False by (by intros []).
  rewrite validate_chunks_in_nonpositive, Hdir by done.
  split; [done|].
  unfold status_of, saved, set_db, insert_video_media. simpl.
  by rewrite lookup_insert_eq.
Qed.

Lemma finalize_upload_without_chunks_witness :
  status_of (exec (finalize_upload 42 0) Samples.w_uploading).2 42 = Some PROCESS_STARTED.
Proof.
  apply (finalize_upload_without_chunks Samples.w_uploading 42 0 (mkVideo true)
           (mkVideoMedia UPLOADED_STARTED "/tmp/videos/42"));
    [reflexivity|reflexivity|reflexivity|reflexivity|lia].
Defined.

(* ===================================================================== *)
(** ** Storage.storage_chunk *)
(* ===================================================================== *)

(** [storage_chunk] reads and writes the file system only. *)
Lemma run_storage_chunk c w directory chunk_index chunk :
  storage_chunk directory chunk_index chunk (mkSt c w) =
    let '(r, fs') := on_fs (storage_chunk directory chunk_index chunk) (fs w) in
    (r, mkSt c (set_fs fs' w)).
Proof.
  unfold on_fs, exec, storage_chunk, os_path_exists, os_makedirs, open_wb_write,
    read_fs, update_fs, pass.
  rewrite !run_bind. simpl.
  destruct (path_exists (fs w) directory); simpl.
  - destruct (write_file _ chunk (fs w)); simpl; [done|].
    unfold set_fs. by rewrite world_eta.
  - destruct (makedirs directory false (fs w)) as [fs1|e]; simpl.
    + destruct (write_file _ chunk fs1); simpl; done.
    + unfold set_fs. by rewrite world_eta.
Qed.

(** A chunk that was stored can be read back. *)
Lemma storage_chunk_stored directory chunk_index chunk fs fs' :
  on_fs (storage_chunk directory chunk_index chunk) fs = (Return (), fs') →
  read_file fs' (join directory (chunk_name chunk_index)) = Some chunk.
Proof.
  unfold on_fs, exec, storage_chunk, os_path_exists, os_makedirs, open_wb_write,
    read_fs, update_fs, pass.
  rewrite !run_bind. simpl.
  set (name := join directory (chunk_name chunk_index)).
  assert (Hwrite : ∀ fs0 fs1, write_file name chunk fs0 = Return fs1 →
                              read_file fs1 name = Some chunk).
  { intros fs0 fs1. unfold write_file, read_file, stat.
    destruct (components name) as [|n p] eqn:Hp; [done|].
    assert (name ≠ "") as Hne by (intros Hn; by rewrite Hn in Hp).
    rewrite bool_decide_eq_false_2 by done.
    destruct (node_at fs0 (removelast (n :: p))) as [[]|]; try done.
    destruct (fs0 !! (n :: p)) as [[]|]; try done;
      intros [= <-]; simpl; by rewrite lookup_insert_eq. }
  destruct (path_exists fs directory); simpl.
  - destruct (write_file name chunk fs) eqn:Hw; simpl; [|done].
    intros [= <-]. eauto.
  - destruct (makedirs directory false fs) as [fs1|e]; simpl; [|done].
    destruct (write_file name chunk fs1) eqn:Hw; simpl; [|done].
    intros [= <-]. eauto.
Qed.

(* ===================================================================== *)
(** ** __prepare_video_media *)
(* ===================================================================== *)

(** Unfolds the monad and the calls to the database, leaving the look-ups
    in the tables as they are. *)
Ltac run_db :=
  cbv beta iota delta
    [mbind M_bind mret M_ret pass raise try_except of_result get_db modify_db
     validate_no_broken_transaction read_db write_db mark_for_rollback_on_error
     concurrent_commit Video_objects_get Video_save Video_video_media
     VideoMedia_objects_get VideoMedia_objects_create VideoMedia_save find_video];
  cbn [conn world needs_rollback tx db Runtime.fs console videos video_medias
       set_db fmap option_fmap option_map].

Ltac run_db_with H :=
  repeat (progress (run_db; rewrite ?H, ?lookup_insert_eq)).

Lemma run_prepare_existing c w race video_id vm :
  needs_rollback c = false →
  video_medias (db w) !! video_id = Some vm →
  __prepare_video_media race video_id (mkSt c w) = (Return vm, mkSt c w).
Proof.
  intros Hc Hvm. unfold __prepare_video_media, try_except.
  by rewrite run_video_media, Hvm.
Qed.

(** Without interference the missing row is created. *)
Lemma run_prepare_create c w video_id :
  needs_rollback c = false →
  video_medias (db w) !! video_id = None →
  __prepare_video_media false video_id (mkSt c w) =
    (Return (fresh_video_media video_id),
     mkSt c (saved video_id (fresh_video_media video_id) w)).
Proof.
  intros Hc Hvm. destruct c as [t nr]. simpl in Hc. subst nr.
  unfold __prepare_video_media. run_db_with Hvm. reflexivity.
Qed.

(** In autocommit mode the row of a concurrent creator is fetched. *)
Lemma run_prepare_race_autocommit w video_id :
  video_medias (db w) !! video_id = None →
  __prepare_video_media true video_id (mkSt idle w) =
    (Return (fresh_video_media video_id),
     mkSt idle (saved video_id (fresh_video_media video_id) w)).
Proof.
  intros Hvm. unfold __prepare_video_media, concurrent_creator, insert_video_media, idle.
  run_db_with Hvm. reflexivity.
Qed.

(** Inside an atomic block the failed insert marks the block, and the
    fetch that follows is refused. *)
Lemma run_prepare_race_atomic d w video_id :
  video_medias (db w) !! video_id = None →
  __prepare_video_media true video_id (mkSt (mkConn (Some d) false) w) =
    (Raise TransactionManagementError,
     mkSt (mkConn (Some (concurrent_creator video_id d)) true)
          (set_db (concurrent_creator video_id (db w)) w)).
Proof.
  intros Hvm. unfold __prepare_video_media, concurrent_creator, insert_video_media.
  run_db_with Hvm. reflexivity.
Qed.

(* ===================================================================== *)
(** ** process_upload *)
(* ===================================================================== *)

Lemma run_atomic {A} (body : M A) c w :
  atomic body (mkSt c w) =
    let '(r, s') := body (mkSt (mkConn (Some (db w)) false) w) in
    match r with
    | Return a =>
        (Return a,
         if needs_rollback (conn s')
         then mkSt c (set_db (default (db (world s')) (tx (conn s'))) (world s'))
         else mkSt c (world s'))
    | Raise e =>
        (Raise e, mkSt c (set_db (default (db (world s')) (tx (conn s'))) (world s')))
    end.
Proof. reflexivity. Qed.

(** What [process_upload] does, by the record it finds. *)
Lemma run_process_upload w race video_id chunk_index chunk v :
  videos (db w) !! video_id = Some v →
  exec (process_upload race video_id chunk_index chunk) w =
    match video_medias (db w) !! video_id with
    | Some vm =>
        match status vm with
        | PROCESS_STARTED =>
            (Raise (VideoMediaInvalidStatusException "An upload is already in progress."), w)
        | UPLOADED_STARTED =>
            let '(r, fs') := on_fs (storage_chunk (video_path vm) chunk_index chunk) (fs w) in
            (r, set_fs fs' w)
        | PROCESS_FINISHED =>
            let '(r, fs') :=
              on_fs (storage_chunk (get_chunk_directory video_id) chunk_index chunk) (fs w) in
            match r with
            | Return _ =>
                (Return (),
                 set_db (mkDB (<[video_id:=mkVideo false]> (videos (db w)))
                              (<[video_id:=mkVideoMedia UPLOADED_STARTED
                                             (get_chunk_directory video_id)]>
                                 (video_medias (db w))))
                        (set_fs fs' w))
            | Raise e => (Raise e, set_fs fs' w)
            end
        | UPLOAD_STARTED =>
            let '(r, fs') := on_fs (storage_chunk (video_path vm) chunk_index chunk) (fs w) in
            match r with
            | Return _ =>
                (Return (),
                 saved video_id (mkVideoMedia UPLOADED_STARTED (video_path vm)) (set_fs fs' w))
            | Raise e => (Raise e, set_fs fs' w)
            end
        end
    | None =>
        if race then
          (Raise TransactionManagementError, set_db (concurrent_creator video_id (db w)) w)
        else
          let '(r, fs') :=
            on_fs (storage_chunk (get_chunk_directory video_id) chunk_index chunk) (fs w) in
          match r with
          | Return _ =>
              (Return (), saved video_id (fresh_video_media video_id) (set_fs fs' w))
          | Raise e => (Raise e, set_fs fs' w)
          end
    end.
Proof.
  intros Hv. unfold exec, process_upload.
  rewrite run_bind, run_find_video, Hv by done.
  rewrite run_atomic.
  destruct (video_medias (db w) !! video_id) as [vm|] eqn:Hvm.
  - rewrite run_bind, (run_prepare_existing _ _ _ _ vm) by done.
    destruct vm as [st path]. cbn [status video_path].
    destruct st.
    + (* UPLOAD_STARTED *)
      rewrite !decide_False by done.
      rewrite !run_bind. cbv beta iota delta [mret M_ret]. cbn [video_path].
      rewrite run_bind, run_video_media_save by done.
      rewrite run_storage_chunk.
      destruct (on_fs _ _) as [[[]|e] fs']; cbn; unfold saved, set_db, set_fs; cbn.
      * reflexivity.
      * by rewrite ?db_eta.
    + (* UPLOADED_STARTED *)
      rewrite decide_False, decide_True by done.
      rewrite run_storage_chunk.
      destruct (on_fs _ _) as [[[]|e] fs']; cbn; unfold set_db, set_fs; cbn;
        by rewrite ?db_eta.
    + (* PROCESS_STARTED *)
      rewrite decide_True by done.
      cbn. by rewrite set_db_same.
    + (* PROCESS_FINISHED *)
      rewrite !decide_False by done. rewrite decide_True by done.
      rewrite !run_bind. rewrite run_video_save by done.
      cbv beta iota delta [mret M_ret]. cbn [status video_path].
      rewrite run_bind, run_video_media_save by done.
      rewrite run_storage_chunk.
      destruct (on_fs _ _) as [[[]|e] fs']; cbn; unfold set_db, set_fs; cbn.
      * reflexivity.
      * by rewrite ?db_eta.
  - destruct race.
    + rewrite run_bind, run_prepare_race_atomic by done. cbn.
      unfold concurrent_creator. by rewrite Hvm.
    + rewrite run_bind, run_prepare_create by done.
      cbn [fresh_video_media status video_path].
      rewrite decide_False, decide_True by done.
      rewrite run_storage_chunk.
      destruct (on_fs _ _) as [[[]|e] fs']; cbn; unfold saved, set_db, set_fs; cbn.
      * reflexivity.
      * by rewrite ?db_eta.
Qed.

(** C2: while the record of a video is in [PROCESS_STARTED],
    [process_upload] fails with [VideoMediaInvalidStatusException]
    (UploadInProgressConflict), whatever the chunk, and leaves the world
    as it was: same record, same files. *)
Theorem process_upload_rejected_while_processing
    w race video_id chunk_index chunk v vm :
  videos (db w) !! video_id = Some v →
  video_medias (db w) !! video_id = Some vm →
  status vm = PROCESS_STARTED →
  exec (process_upload race video_id chunk_index chunk) w =
    (Raise (VideoMediaInvalidStatusException "An upload is already in progress."), w).
Proof.
  intros Hv Hvm Hst.
  rewrite (run_process_upload _ _ _ _ _ _ Hv), Hvm, Hst. reflexivity.
Qed.

Lemma process_upload_rejected_while_processing_witness :
  exec (process_upload false 42 0 Samples.payload) Samples.w_processing =
    (Raise (VideoMediaInvalidStatusException "An upload is already in progress."),
     Samples.w_processing).
Proof.
  apply (process_upload_rejected_while_processing Samples.w_processing false 42 0
           Samples.payload (mkVideo true) (mkVideoMedia PROCESS_STARTED "/tmp/videos/42"));
    reflexivity.
Defined.

(** C3: for a record in [PROCESS_FINISHED], a chunk that can be stored in
    the chunk directory of the video is accepted: the record gets that
    directory as its path and the status [UPLOADED_STARTED], the video is
    no longer published, and the chunk is in the file of its index under
    that directory. *)
Theorem process_upload_reupload w race video_id chunk_index chunk v vm fs' :
  videos (db w) !! video_id = Some v →
  video_medias (db w) !! video_id = Some vm →
  status vm = PROCESS_FINISHED →
  on_fs (storage_chunk (get_chunk_directory video_id) chunk_index chunk) (fs w)
    = (Return (), fs') →
  ∃ w', exec (process_upload race video_id chunk_index chunk) w = (Return (), w') ∧
        video_medias (db w') !! video_id =
          Some (mkVideoMedia UPLOADED_STARTED (get_chunk_directory video_id)) ∧
        videos (db w') !! video_id = Some (mkVideo false) ∧
        fs w' = fs' ∧
        read_file (fs w') (join (get_chunk_directory video_id) (chunk_name chunk_index))
          = Some chunk.
Proof.
  intros Hv Hvm Hst Hstore.
  rewrite (run_process_upload _ _ _ _ _ _ Hv), Hvm, Hst, Hstore.
  eexists. split; [reflexivity|]. cbn.
  rewrite !lookup_insert_eq. repeat split.
  by apply storage_chunk_stored in Hstore.
Qed.

Lemma process_upload_reupload_witness :
  ∃ w', exec (process_upload false 42 0 Samples.payload) Samples.w_finished
          = (Return (), w') ∧
        video_medias (db w') !! 42 = Some (mkVideoMedia UPLOADED_STARTED "/tmp/videos/42") ∧
        videos (db w') !! 42 = Some (mkVideo false) ∧
        read_file (fs w') "/tmp/videos/42/0.chunk" = Some Samples.payload.
Proof.
  assert (Hstore :
    on_fs (storage_chunk (get_chunk_directory 42) 0 Samples.payload) (fs Samples.w_finished)
    = (Return (),
       (on_fs (storage_chunk (get_chunk_directory 42) 0 Samples.payload) ∅).2))
    by (vm_compute; reflexivity).
  destruct (process_upload_reupload Samples.w_finished false 42 0 Samples.payload
              (mkVideo true) (mkVideoMedia PROCESS_FINISHED "/media/uploads/42/video.mpd")
              _ eq_refl eq_refl eq_refl Hstore)
    as (w' & Hrun & Hvm & Hv & _ & Hfile).
  exists w'. repeat split; assumption.
Defined.

(** A re-upload whose chunk cannot be stored changes no row. *)
Lemma process_upload_reupload_failed w race video_id chunk_index chunk v vm e fs' :
  videos (db w) !! video_id = Some v →
  video_medias (db w) !! video_id = Some vm →
  status vm = PROCESS_FINISHED →
  on_fs (storage_chunk (get_chunk_directory video_id) chunk_index chunk) (fs w)
    = (Raise e, fs') →
  exec (process_upload race video_id chunk_index chunk) w = (Raise e, set_fs fs' w).
Proof.
  intros Hv Hvm Hst Hstore.
  by rewrite (run_process_upload _ _ _ _ _ _ Hv), Hvm, Hst, Hstore.
Qed.

(** The first chunk of a video, without interference: one row is created,
    in [UPLOADED_STARTED] and with the chunk directory as its path. *)
Lemma process_upload_first_chunk w video_id chunk_index chunk v fs' :
  videos (db w) !! video_id = Some v →
  video_medias (db w) !! video_id = None →
  on_fs (storage_chunk (get_chunk_directory video_id) chunk_index chunk) (fs w)
    = (Return (), fs') →
  exec (process_upload false video_id chunk_index chunk) w =
    (Return (), saved video_id (fresh_video_media video_id) (set_fs fs' w)) ∧
  video_medias (db (saved video_id (fresh_video_media video_id) (set_fs fs' w)))
    = <[video_id:=mkVideoMedia UPLOADED_STARTED (get_chunk_directory video_id)]>
        (video_medias (db w)).
Proof.
  intros Hv Hvm Hstore.
  by rewrite (run_process_upload _ _ _ _ _ _ Hv), Hvm, Hstore.
Qed.

(** C6, what the code does when a concurrent creator wins: the insert
    of this request fails on the unique index inside the atomic block of
    [process_upload], the block is marked for rollback, and the fetch of
    the winner's row is refused with [TransactionManagementError], which
    reaches the caller.  The winner's row is the only one. *)
Theorem process_upload_creation_race w video_id chunk_index chunk v :
  videos (db w) !! video_id = Some v →
  video_medias (db w) !! video_id = None →
  exec (process_upload true video_id chunk_index chunk) w =
    (Raise TransactionManagementError, saved video_id (fresh_video_media video_id) w).
Proof.
  intros Hv Hvm.
  rewrite (run_process_upload _ _ _ _ _ _ Hv), Hvm.
  unfold concurrent_creator. by rewrite Hvm.
Qed.

Lemma process_upload_creation_race_witness :
  exec (process_upload true 42 0 Samples.payload) Samples.w_new =
    (Raise TransactionManagementError,
     saved 42 (mkVideoMedia UPLOADED_STARTED "/tmp/videos/42") Samples.w_new).
Proof.
  apply (process_upload_creation_race Samples.w_new 42 0 Samples.payload (mkVideo true));
    reflexivity.
Defined.

(* ===================================================================== *)
(** ** Storage.move_chunks *)
(* ===================================================================== *)

(** [os.makedirs] keeps what is there. *)
Lemma makedirs_from_preserves exist_ok name rest :
  ∀ (fs fs1 : gmap (list string) Node) pre,
    makedirs_from exist_ok name fs pre rest = Return fs1 →
    ∀ k n, fs !! k = Some n → fs1 !! k = Some n.
Proof.
  induction rest as [|c rest IH]; intros fs fs1 pre; simpl.
  - by intros [= <-].
  - destruct (fs !! (pre ++ [c])) as [[data|]|] eqn:Hp.
    + by destruct rest.
    + destruct rest as [|c' rest'].
      * destruct exist_ok; [|done]. by intros [= <-].
      * apply IH.
    + intros Hrec k n Hk. apply (IH _ _ _ Hrec).
      rewrite lookup_insert_ne; [done|]. intros <-. congruence.
Qed.






(** One turn of the loop: whatever happens to the entry, the loop goes
    on, with one more line printed. *)
Lemma run_move_chunk c w source_path dest_path name :
  move_chunk source_path dest_path name (mkSt c w) =
    if isfile (fs w) (join source_path name) then
      match shutil_move (join source_path name) (join dest_path name) (fs w) with
      | Return fs1 =>
          (Return (),
           mkSt c (mkWorld (db w) fs1 (console w ++ [Moved source_path name dest_path])))
      | Raise e =>
          (Return (),
           mkSt c (mkWorld (db w) (fs w) (console w ++ [MoveFailed source_path name e])))
      end
    else
      (Return (),
       mkSt c (mkWorld (db w) (fs w) (console w ++ [NotAFile (join source_path name)]))).
Proof.
  unfold move_chunk, os_path_isfile, read_fs, shutil_move_m, update_fs, print,
    try_except.
  rewrite run_bind. cbn.
  destruct (isfile (fs w) (join source_path name)); [|done].
  rewrite run_bind. cbn.
  by destruct (shutil_move _ _ (fs w)).
Qed.

Lemma run_for_each_move_chunk source_path dest_path names :
  ∀ c w, ∃ fs2 log,
    for_each names (move_chunk source_path dest_path) (mkSt c w) =
      (Return (), mkSt c (mkWorld (db w) fs2 (console w ++ log))) ∧
    relocating source_path dest_path (fs w) names fs2 log.
Proof.
  induction names as [|name names IH]; intros c w.
  - exists (fs w), []. split; [|constructor].
    cbn. by rewrite app_nil_r, world_eta.
  - cbn [for_each]. rewrite run_bind, run_move_chunk.
    destruct (isfile (fs w) (join source_path name)) eqn:Hfile.
    + destruct (shutil_move _ _ (fs w)) as [fs1|e] eqn:Hmove.
      * destruct (IH c (mkWorld (db w) fs1 (console w ++ [Moved source_path name dest_path])))
          as (fs2 & log & Hrun & Hrel).
        exists fs2, (Moved source_path name dest_path :: log).
        rewrite Hrun. cbn. rewrite <- app_assoc. split; [done|].
        by eapply relocating_moved.
      * destruct (IH c (mkWorld (db w) (fs w) (console w ++ [MoveFailed source_path name e])))
          as (fs2 & log & Hrun & Hrel).
        exists fs2, (MoveFailed source_path name e :: log).
        rewrite Hrun. cbn. rewrite <- app_assoc. split; [done|].
        by eapply relocating_failed.
    + destruct (IH c (mkWorld (db w) (fs w) (console w ++ [NotAFile (join source_path name)])))
        as (fs2 & log & Hrun & Hrel).
      exists fs2, (NotAFile (join source_path name) :: log).
      rewrite Hrun. cbn. rewrite <- app_assoc. split; [done|].
      by eapply relocating_skipped.
Qed.


Lemma isdir_stat (fs : gmap (list string) Node) name :
  isdir fs name = true ↔ stat fs name = Some Dir.
Proof. unfold isdir. destruct (stat fs name) as [[]|]; naive_solver. Qed.




(* ===================================================================== *)
(** ** Promotion: upload_chunks_to_external_storage and
       register_processed_video_path *)
(* ===================================================================== *)

Lemma run_register_processed_video_path w video_id path v :
  videos (db w) !! video_id = Some v →
  exec (register_processed_video_path video_id path) w =
    match video_medias (db w) !! video_id with
    | None => (Raise RelatedObjectDoesNotExist, w)
    | Some vm =>
        if decide (status vm ≠ PROCESS_STARTED) then
          (Raise (VideoMediaInvalidStatusException
                    "Processing must be started to finish it."), w)
        else (Return (), saved video_id (mkVideoMedia PROCESS_FINISHED path) w)
    end.
Proof.
  intros Hv. unfold exec, register_processed_video_path.
  rewrite run_bind, run_find_video, Hv by done.
  rewrite run_bind, run_video_media by done.
  destruct (video_medias (db w) !! video_id) as [vm|]; [|done].
  destruct (decide (status vm ≠ PROCESS_STARTED)); [done|].
  by rewrite run_video_media_save.
Qed.





(* ===================================================================== *)
(** ** The admin view and its form *)
(* ===================================================================== *)

(** C5: a posted chunk larger than [MAX_VIDEO_CHUNK_SIZE] (1 MiB) is
    refused by the form, with the error of [clean_chunk] on the field
    [chunk] and the status 400, before [process_upload] is called: the
    database, the files and the console are as they were. *)
Theorem chunk_too_large_rejected w race id request f :
  FILES_chunk request = Some f →
  size f > MAX_VIDEO_CHUNK_SIZE →
  ∃ errors,
    exec (_do_upload_video_chunks race request id) w =
      (Return (mkJsonResponse (error_form errors) 400), w) ∧
    ("chunk", ValidationError "O arquivo deve ser um vídeo no formato MP4.") ∈ errors.
Proof.
  intros Hf Hsize.
  unfold _do_upload_video_chunks, VideoChunkUploadForm, clean_field_chunk, clean_chunk.
  rewrite Hf.
  rewrite decide_False by (unfold MAX_VIDEO_CHUNK_SIZE in Hsize; lia).
  rewrite decide_True by done.
  destruct (clean_field_chunkIndex (POST_chunkIndex request)) as [e|i];
    eexists; (split; [reflexivity|]); apply elem_of_cons; by left.
Qed.

Lemma chunk_too_large_rejected_witness :
  ∃ errors,
    exec (_do_upload_video_chunks false (mkChunkUpload (Some Samples.big_chunk) (Some 0)) 42)
         Samples.w_uploading =
      (Return (mkJsonResponse (error_form errors) 400), Samples.w_uploading) ∧
    ("chunk", ValidationError "O arquivo deve ser um vídeo no formato MP4.") ∈ errors.
Proof.
  apply (chunk_too_large_rejected Samples.w_uploading false 42
           (mkChunkUpload (Some Samples.big_chunk) (Some 0)) Samples.big_chunk).
  - reflexivity.
  - vm_compute. reflexivity.
Defined.

(* ===================================================================== *)
(** ** The state machine *)
(* ===================================================================== *)

(** No operation gets past a video that does not exist. *)
Lemma run_op_no_video w op video_id :
  videos (db w) !! video_id = None →
  exec (run_op op video_id) w = (Raise Video_DoesNotExist, w).
Proof.
  intros Hv. unfold exec.
  destruct op; cbn [run_op];
    unfold process_upload, finalize_upload, upload_chunks_to_external_storage,
      register_processed_video_path;
    by rewrite run_bind, run_find_video, Hv.
Qed.

(** [move_chunks] does not write to the database. *)
Lemma move_chunks_loop_db c w source_path dest_path :
  db (world ((os_listdir source_path ≫= λ filenames,
                for_each filenames (move_chunk source_path dest_path))
             (mkSt c w)).2) = db w.
Proof.
  rewrite run_bind. unfold os_listdir. cbn.
  destruct (listdir source_path (fs w)) as [names|e]; [|done].
  destruct (run_for_each_move_chunk source_path dest_path names c w)
    as (fs2 & log & Hrun & _).
  by rewrite Hrun.
Qed.

Lemma move_chunks_db c w source_path dest_path :
  db (world (move_chunks source_path dest_path (mkSt c w)).2) = db w.
Proof.
  unfold move_chunks, os_path_exists, os_makedirs, read_fs, update_fs, pass.
  rewrite run_bind. cbn.
  destruct (path_exists (fs w) dest_path); cbn.
  - rewrite run_bind. cbn. apply move_chunks_loop_db.
  - rewrite run_bind. cbn.
    destruct (makedirs dest_path true (fs w)) as [fs1|e]; cbn; [|done].
    apply (move_chunks_loop_db c (set_fs fs1 w)).
Qed.

Lemma status_of_insert (m : gmap Z VideoMedia) video_id vm video_id' :
  status <$> <[video_id:=vm]> m !! video_id' =
    if decide (video_id' = video_id) then Some (status vm) else status <$> m !! video_id'.
Proof.
  case_decide as Heq.
  - subst. by rewrite lookup_insert_eq.
  - by rewrite lookup_insert_ne.
Qed.

(** One operation, from a world without a record in [UPLOAD_STARTED]:
    the status of a video is as before, or it is the status of the video
    operated on and has moved along an edge. *)
Lemma run_op_edge w op video_id video_id' :
  (∀ i, status_of w i ≠ Some UPLOAD_STARTED) →
  status_of (exec (run_op op video_id) w).2 video_id' = status_of w video_id' ∨
  (video_id' = video_id ∧
   edge op (status_of w video_id) (status_of (exec (run_op op video_id) w).2 video_id)).
Proof.
  intros Hinv.
  destruct (videos (db w) !! video_id) as [v|] eqn:Hv;
    [|rewrite run_op_no_video by done; by left].
  specialize (Hinv video_id).
  unfold status_of in *.
  destruct op as [race chunk_index chunk|total_chunks| |path]; cbn [run_op].
  - rewrite (run_process_upload _ _ _ _ _ _ Hv).
    destruct (video_medias (db w) !! video_id) as [[st p]|] eqn:Hvm; cbn [status video_path].
    + destruct st; [done| | |].
      * destruct (on_fs _ _) as [r fs']. by left.
      * by left.
      * destruct (on_fs _ _) as [[[]|e] fs']; cbn; [|by left].
        rewrite !status_of_insert. case_decide; [|by left].
        right. split; [done|]. rewrite decide_True by done. constructor.
    + destruct race.
      * cbn. unfold concurrent_creator. rewrite Hvm. cbn.
        rewrite !status_of_insert. case_decide; [|by left].
        right. split; [done|]. rewrite decide_True by done. constructor.
      * destruct (on_fs _ _) as [[[]|e] fs']; cbn; [|by left].
        rewrite !status_of_insert. case_decide; [|by left].
        right. split; [done|]. rewrite decide_True by done. constructor.
  - rewrite (run_finalize_upload _ _ _ _ Hv).
    destruct (video_medias (db w) !! video_id) as [[st p]|] eqn:Hvm;
      cbn [status video_path]; [|by left].
    case_decide as Hst; [by left|].
    assert (st = UPLOADED_STARTED) as -> by (by destruct (decide (st = UPLOADED_STARTED))).
    destruct (validate_chunks_in _ _ _); [|by left]. cbn.
    rewrite !status_of_insert. case_decide; [|by left].
    right. split; [done|]. rewrite decide_True by done. constructor.
  - left. unfold exec, upload_chunks_to_external_storage.
    rewrite run_bind, run_find_video, Hv by done.
    pose proof (move_chunks_db idle w (get_chunk_directory video_id)
                  (external_directory video_id)) as Hdb.
    destruct (move_chunks _ _ _) as [r s]. cbn in *. by rewrite Hdb.
  - rewrite (run_register_processed_video_path _ _ _ _ Hv).
    destruct (video_medias (db w) !! video_id) as [[st p]|] eqn:Hvm;
      cbn [status video_path]; [|by left].
    case_decide as Hst; [by left|].
    assert (st = PROCESS_STARTED) as -> by (by destruct (decide (st = PROCESS_STARTED))).
    cbn. rewrite !status_of_insert. case_decide; [|by left].
    right. split; [done|]. rewrite decide_True by done. constructor.
Qed.

Lemma edge_target op a b : edge op a b → b ≠ Some UPLOAD_STARTED.
Proof. by destruct 1. Qed.

(** The service never leaves a record in the status it does not use. *)
Lemma reachable_no_upload_started w :
  reachable w → ∀ i, status_of w i ≠ Some UPLOAD_STARTED.
Proof.
  induction 1 as [w Hempty|w op video_id Hreach IH|w w' Hreach IH Hsame]; intros i.
  - unfold status_of. by rewrite Hempty, lookup_empty.
  - destruct (run_op_edge w op video_id i IH) as [->|[-> Hedge]]; [done|].
    by eapply edge_target.
  - unfold status_of. rewrite Hsame. apply IH.
Qed.

(** Along an edge the status advances, but for the reset of a re-upload
    and the chunk that leaves a started upload as it is. *)
Lemma edge_forward op a b :
  edge op a b →
  a = b ∨ rank a < rank b ∨ (a = Some PROCESS_FINISHED ∧ b = Some UPLOADED_STARTED).
Proof. destruct 1; cbn; auto with lia. Qed.

(** C7: in a reachable world, an operation on a video leaves the status
    of every video as it was or moves the status of that video along an
    edge of the state machine (none to [UPLOADED_STARTED], chunks
    accumulating in [UPLOADED_STARTED], [UPLOADED_STARTED] to
    [PROCESS_STARTED] by finalization, [PROCESS_STARTED] to
    [PROCESS_FINISHED] by promotion, [PROCESS_FINISHED] back to
    [UPLOADED_STARTED] by a re-upload); a status that changes advances,
    except by that reset. *)
Theorem status_follows_state_machine w op video_id video_id' :
  reachable w →
  (status_of (exec (run_op op video_id) w).2 video_id' = status_of w video_id' ∨
   (video_id' = video_id ∧
    edge op (status_of w video_id) (status_of (exec (run_op op video_id) w).2 video_id))) ∧
  (status_of (exec (run_op op video_id) w).2 video_id' = status_of w video_id' ∨
   rank (status_of w video_id') < rank (status_of (exec (run_op op video_id) w).2 video_id') ∨
   (status_of w video_id' = Some PROCESS_FINISHED ∧
    status_of (exec (run_op op video_id) w).2 video_id' = Some UPLOADED_STARTED)).
Proof.
  intros Hreach.
  pose proof (run_op_edge w op video_id video_id' (reachable_no_upload_started w Hreach))
    as Hstep.
  split; [done|].
  destruct Hstep as [?|[-> Hedge]]; [by left|].
  destruct (edge_forward _ _ _ Hedge) as [?|[?|?]]; auto.
Qed.

Lemma status_follows_state_machine_witness :
  reachable Samples.w_new ∧
  edge (SubmitChunk false 0 Samples.payload)
    (status_of Samples.w_new 42)
    (status_of (exec (run_op (SubmitChunk false 0 Samples.payload) 42) Samples.w_new).2 42).
Proof.
  assert (Hreach : reachable Samples.w_new) by (apply reachable_init; reflexivity).
  split; [exact Hreach|].
  destruct (status_follows_state_machine Samples.w_new (SubmitChunk false 0 Samples.payload)
              42 42 Hreach) as [[Hsame|[_ Hedge]] _].
  - vm_compute in Hsame. discriminate Hsame.
  - exact Hedge.
Defined.

(* ===================================================================== *)
(** ** A run of the life cycle *)
(* ===================================================================== *)

(** Video 42 has no record.  Two chunks are submitted, the upload is
    finalized with a total of two, and a third submission is refused. *)
Example life_cycle_of_video_42 :
  let w1 := (exec (process_upload false 42 0 Samples.payload) Samples.w_new).2 in
  let w2 := (exec (process_upload false 42 1 Samples.payload) w1).2 in
  let w3 := (exec (finalize_upload 42 2) w2).2 in
  status_of Samples.w_new 42 = None ∧
  status_of w1 42 = Some UPLOADED_STARTED ∧
  status_of w2 42 = Some UPLOADED_STARTED ∧
  status_of w3 42 = Some PROCESS_STARTED ∧
  exec (process_upload false 42 0 Samples.payload) w3 =
    (Raise (VideoMediaInvalidStatusException "An upload is already in progress."), w3).
Proof. vm_compute. repeat split. Qed.

(** A video that does not exist stops [finalize_upload] before the
    record is looked for. *)
Example finalize_upload_unknown_video :
  exec (finalize_upload 999 3) Samples.w_new = (Raise Video_DoesNotExist, Samples.w_new).
Proof. reflexivity. Qed.

(* ===================================================================== *)
(** ** The path of a chunk *)
(* ===================================================================== *)

Lemma string_app_cons c s t : String c s +:+ t = String c (s +:+ t).
Proof. reflexivity. Qed.

Lemma string_app_nil_r s : s +:+ "" = s.
Proof. induction s as [|c s IH]; [done|]. by rewrite string_app_cons, IH. Qed.

Lemma string_app_assoc s t u : (s +:+ t) +:+ u = s +:+ t +:+ u.
Proof. induction s as [|c s IH]; [done|]. by rewrite !string_app_cons, IH. Qed.

Lemma string_app_length s t :
  String.length (s +:+ t) = (String.length s + String.length t)%nat.
Proof. induction s as [|c s IH]; [done|]. rewrite string_app_cons. simpl. by rewrite IH. Qed.

Lemma string_app_inj_r s t u : s +:+ u = t +:+ u → s = t.
Proof.
  revert t. induction s as [|c s IH]; intros [|d t] H.
  - done.
  - apply (f_equal String.length) in H.
    rewrite !string_app_length in H. simpl in H. lia.
  - apply (f_equal String.length) in H.
    rewrite !string_app_length in H. simpl in H. lia.
  - rewrite !string_app_cons in H. injection H as -> H. f_equal. by apply IH.
Qed.

Lemma slash_free_app s t : slash_free (s +:+ t) = slash_free s && slash_free t.
Proof.
  induction s as [|c s IH]; [done|].
  rewrite string_app_cons. simpl. rewrite IH. by rewrite andb_assoc.
Qed.

(** A name without slash is one component. *)
Lemma split_slash_free name :
  slash_free name = true →
  ∀ cur, split_slash name cur =
         if bool_decide (cur +:+ name = "") then [] else [cur +:+ name].
Proof.
  induction name as [|c name IH]; intros Hfree cur; simpl.
  - by rewrite string_app_nil_r.
  - simpl in Hfree. apply andb_true_iff in Hfree as [Hc Hfree].
    apply negb_true_iff in Hc. rewrite Hc.
    rewrite (IH Hfree). by rewrite string_app_assoc.
Qed.

Lemma split_slash_app_char a c b :
  is_slash c = true →
  ∀ cur, split_slash (a +:+ String c b) cur = split_slash a cur ++ split_slash b "".
Proof.
  intros Hc. induction a as [|d a IH]; intros cur.
  - change ("" +:+ String c b) with (String c b). simpl. by rewrite Hc.
  - rewrite string_app_cons. simpl. destruct (is_slash d).
    + by rewrite IH, app_assoc.
    + apply IH.
Qed.

Lemma split_slash_app_slash a b cur :
  split_slash (a +:+ "/" +:+ b) cur = split_slash a cur ++ split_slash b "".
Proof.
  change ("/" +:+ b) with (String (Ascii.Ascii true true true true false true false false) b).
  by apply split_slash_app_char.
Qed.

Lemma ends_with_slash_inv a : ends_with_slash a = true → ∃ a0, a = a0 +:+ "/".
Proof.
  induction a as [|c a IH]; [done|]. simpl. destruct a as [|d a].
  - unfold is_slash. intros Hc. apply bool_decide_eq_true in Hc.
    exists "". by rewrite Hc.
  - intros H. destruct (IH H) as [a0 Ha0]. exists (String c a0).
    by rewrite string_app_cons, <- Ha0.
Qed.

Lemma plain_name_not_absolute name : plain_name name → starts_with_slash name = false.
Proof.
  intros (Hfree & Hne & _). destruct name as [|c name]; [done|].
  simpl in *. apply andb_true_iff in Hfree as [Hc _]. by apply negb_true_iff in Hc.
Qed.

(** A plain name joined to a directory is an entry of that directory. *)
Lemma components_join directory name :
  plain_name name →
  components (join directory name) = components directory ++ [name].
Proof.
  intros Hplain. pose proof Hplain as (Hfree & Hne & Hdot).
  assert (Hname : filter (λ n, n ≠ ".") (split_slash name "") = [name]).
  { rewrite split_slash_free by done. simpl.
    rewrite bool_decide_eq_false_2 by done.
    rewrite filter_cons_True by done. done. }
  unfold join, components. rewrite plain_name_not_absolute by done.
  case_bool_decide as Hempty; simpl.
  - subst directory. simpl. done.
  - destruct (ends_with_slash directory) eqn:Hends.
    + destruct (ends_with_slash_inv _ Hends) as [a0 ->].
      rewrite string_app_assoc.
      pose proof (split_slash_app_slash a0 "" "") as Htrail.
      change (a0 +:+ "/" +:+ "") with (a0 +:+ "/") in Htrail.
      simpl in Htrail. rewrite app_nil_r in Htrail.
      rewrite Htrail, split_slash_app_slash.
      by rewrite filter_app, Hname.
    + rewrite split_slash_app_slash. by rewrite filter_app, Hname.
Qed.

Lemma pretty_N_char_not_slash d : is_slash (pretty_N_char d) = false.
Proof. unfold pretty_N_char. by repeat case_match. Qed.

Lemma slash_free_pretty_N_go x :
  ∀ s, slash_free s = true → slash_free (pretty_N_go x s) = true.
Proof.
  induction (N.lt_wf_0 x) as [x _ IH]; intros s Hs.
  destruct (decide (x = 0)%N) as [->|Hx].
  - by rewrite pretty_N_go_0.
  - rewrite pretty_N_go_step by lia. apply IH.
    + apply N.div_lt; lia.
    + simpl. by rewrite pretty_N_char_not_slash.
Qed.

Lemma slash_free_pretty_N (x : N) : slash_free (pretty x) = true.
Proof.
  unfold pretty, pretty_N. case_decide; [done|]. by apply slash_free_pretty_N_go.
Qed.

Lemma slash_free_pretty_Z (x : Z) : slash_free (pretty x) = true.
Proof.
  destruct x as [|p|p]; [done| |].
  - apply (slash_free_pretty_N (N.pos p)).
  - change (slash_free ("-" +:+ pretty (N.pos p)) = true).
    rewrite slash_free_app. by rewrite (slash_free_pretty_N (N.pos p)).
Qed.

Lemma plain_chunk_name chunk_index : plain_name (chunk_name chunk_index).
Proof.
  unfold plain_name, chunk_name. split; [|split].
  - by rewrite slash_free_app, slash_free_pretty_Z.
  - intros H. apply (f_equal String.length) in H.
    rewrite string_app_length in H. simpl in H. lia.
  - intros H. apply (f_equal String.length) in H.
    rewrite string_app_length in H. simpl in H. lia.
Qed.

Lemma chunk_name_inj i j : chunk_name i = chunk_name j → i = j.
Proof. unfold chunk_name. intros H. apply string_app_inj_r in H. by apply (inj pretty). Qed.

Lemma components_chunk_path directory chunk_index :
  components (join directory (chunk_name chunk_index)) =
    components directory ++ [chunk_name chunk_index].
Proof. apply components_join, plain_chunk_name. Qed.

(* ===================================================================== *)
(** ** More on Storage.storage_chunk *)
(* ===================================================================== *)

Lemma exec_storage_chunk w directory chunk_index chunk :
  exec (storage_chunk directory chunk_index chunk) w =
    let '(r, fs') := on_fs (storage_chunk directory chunk_index chunk) (fs w) in
    (r, set_fs fs' w).
Proof.
  unfold exec. rewrite run_storage_chunk. by destruct (on_fs _ _).
Qed.

Lemma on_fs_storage_chunk (directory : string) (chunk_index : Z) (chunk : bytes) (fs : gmap (list string) Node) :
  on_fs (storage_chunk directory chunk_index chunk) fs =
    if path_exists fs directory then
      match write_file (join directory (chunk_name chunk_index)) chunk fs with
      | Return fs' => (Return (), fs')
      | Raise e => (Raise e, fs)
      end
    else
      match makedirs directory false fs with
      | Return fs1 =>
          match write_file (join directory (chunk_name chunk_index)) chunk fs1 with
          | Return fs' => (Return (), fs')
          | Raise e => (Raise e, fs1)
          end
      | Raise e => (Raise e, fs)
      end.
Proof.
  unfold on_fs, exec, storage_chunk, os_path_exists, os_makedirs, open_wb_write,
    read_fs, update_fs, pass.
  rewrite !run_bind. simpl.
  destruct (path_exists fs directory); simpl.
  - by destruct (write_file _ chunk fs).
  - destruct (makedirs directory false fs) as [fs1|e]; simpl; [|done].
    by destruct (write_file _ chunk fs1).
Qed.

(** Writing a chunk file, by what is found at the directory. *)
Lemma write_file_chunk (directory : string) (chunk_index : Z) (chunk : bytes) (fs : gmap (list string) Node) :
  write_file (join directory (chunk_name chunk_index)) chunk fs =
    match node_at fs (components directory) with
    | Some Dir =>
        match fs !! (components directory ++ [chunk_name chunk_index]) with
        | Some Dir =>
            Raise (OSError EISDIR (join directory (chunk_name chunk_index)))
        | _ => Return (<[components directory ++ [chunk_name chunk_index]:=File chunk]> fs)
        end
    | Some (File _) => Raise (OSError ENOTDIR (join directory (chunk_name chunk_index)))
    | None => Raise (OSError ENOENT (join directory (chunk_name chunk_index)))
    end.
Proof.
  unfold write_file. rewrite components_chunk_path.
  destruct (components directory ++ [chunk_name chunk_index]) as [|c p] eqn:Hp.
  { by destruct (components directory). }
  rewrite <- Hp, removelast_last. done.
Qed.

Lemma makedirs_preserves (name : string) (exist_ok : bool) (fs fs1 : gmap (list string) Node) :
  makedirs name exist_ok fs = Return fs1 →
  ∀ k n, fs !! k = Some n → fs1 !! k = Some n.
Proof.
  unfold makedirs. case_bool_decide; [done|].
  destruct (components name) as [|c rest] eqn:Hc.
  - destruct exist_ok; [|done]. by intros [= <-].
  - apply makedirs_from_preserves.
Qed.

(** What an accepted chunk leaves: the directory, the chunk in its file,
    and everything else that was there. *)
Lemma storage_chunk_accepted (directory : string) (chunk_index : Z) (chunk : bytes)
    (fs fs' : gmap (list string) Node) :
  on_fs (storage_chunk directory chunk_index chunk) fs = (Return (), fs') →
  directory ≠ "" ∧
  node_at fs' (components directory) = Some Dir ∧
  fs' !! (components directory ++ [chunk_name chunk_index]) = Some (File chunk) ∧
  ∀ k n, k ≠ components directory ++ [chunk_name chunk_index] →
         fs !! k = Some n → fs' !! k = Some n.
Proof.
  rewrite on_fs_storage_chunk.
  set (target := components directory ++ [chunk_name chunk_index]).
  assert (Hwrite : ∀ fs1 : gmap (list string) Node,
    (∀ k n, fs !! k = Some n → fs1 !! k = Some n) →
    write_file (join directory (chunk_name chunk_index)) chunk fs1 = Return fs' →
    node_at fs' (components directory) = Some Dir ∧
    fs' !! target = Some (File chunk) ∧
    ∀ k n, k ≠ target → fs !! k = Some n → fs' !! k = Some n).
  { intros fs1 Hkeep. rewrite write_file_chunk. fold target.
    destruct (node_at fs1 (components directory)) as [[]|] eqn:Hdir; try done.
    assert (Hne : target ≠ components directory).
    { unfold target. intros H. apply (f_equal length) in H.
      rewrite length_app in H. simpl in H. lia. }
    assert (Hres : <[target:=File chunk]> fs1 = fs' →
      node_at fs' (components directory) = Some Dir ∧
      fs' !! target = Some (File chunk) ∧
      ∀ k n, k ≠ target → fs !! k = Some n → fs' !! k = Some n).
    { intros <-. split; [|split].
      - destruct (components directory) as [|c p] eqn:Hc; [done|].
        simpl in *. by rewrite lookup_insert_ne.
      - by rewrite lookup_insert_eq.
      - intros k n Hk Hfs. rewrite lookup_insert_ne by done. by apply Hkeep. }
    destruct (fs1 !! target) as [[]|]; try done; intros [= H]; by apply Hres. }
  unfold path_exists, stat. case_bool_decide as Hempty.
  - subst directory. unfold makedirs. by rewrite bool_decide_eq_true_2.
  - destruct (node_at fs (components directory)) as [n|].
    + destruct (write_file _ chunk fs) as [fs2|e] eqn:Hw; [|done].
      intros [= <-]. split; [done|]. by apply (Hwrite fs).
    + destruct (makedirs directory false fs) as [fs1|e] eqn:Hmk; [|done].
      destruct (write_file _ chunk fs1) as [fs2|e] eqn:Hw; [|done].
      intros [= <-]. split; [done|]. apply (Hwrite fs1); [|done].
      by eapply makedirs_preserves.
Qed.

Lemma read_file_lookup (fs : gmap (list string) Node) (name : string) (data : bytes) :
  read_file fs name = Some data ↔
  name ≠ "" ∧ components name ≠ [] ∧ fs !! components name = Some (File data).
Proof.
  unfold read_file, stat. case_bool_decide as Hname.
  - split; [done|]. by intros [? _].
  - destruct (components name) as [|c p]; simpl.
    + split; [done|]. by intros (_ & ? & _).
    + destruct (fs !! (c :: p)) as [[d|]|].
      * split; [by intros [= ->]|by intros (_ & _ & [= ->])].
      * split; [done|by intros (_ & _ & ?)].
      * split; [done|by intros (_ & _ & ?)].
Qed.

Lemma exec_storage_chunk_inv w w' directory chunk_index chunk r :
  exec (storage_chunk directory chunk_index chunk) w = (r, w') →
  on_fs (storage_chunk directory chunk_index chunk) (fs w) = (r, fs w') ∧
  w' = set_fs (fs w') w.
Proof.
  rewrite exec_storage_chunk. destruct (on_fs _ _) as [r' fs'].
  by intros [= -> <-].
Qed.

Lemma chunk_path_not_empty directory chunk_index :
  join directory (chunk_name chunk_index) ≠ "".
Proof.
  intros H. pose proof (components_chunk_path directory chunk_index) as Hc.
  rewrite H in Hc. by destruct (components directory).
Qed.

Lemma read_chunk_lookup (fs : gmap (list string) Node) (directory : string)
    (chunk_index : Z) (data : bytes) :
  read_file fs (join directory (chunk_name chunk_index)) = Some data ↔
  fs !! (components directory ++ [chunk_name chunk_index]) = Some (File data).
Proof.
  rewrite read_file_lookup, components_chunk_path. split.
  - by intros (_ & _ & ?).
  - intros H. split; [apply chunk_path_not_empty|]. split; [|done].
    by destruct (components directory).
Qed.

(** X1: a chunk that [storage_chunk] accepted can be read back from the
    file of its index, its directory is there, and nothing but the file
    system was touched. *)
Theorem stored_chunk_read_back w w' directory chunk_index chunk :
  exec (storage_chunk directory chunk_index chunk) w = (Return (), w') →
  read_file (fs w') (join directory (chunk_name chunk_index)) = Some chunk ∧
  isdir (fs w') directory = true ∧
  db w' = db w ∧ console w' = console w.
Proof.
  intros Hrun. apply exec_storage_chunk_inv in Hrun as [Hfs ->].
  destruct (storage_chunk_accepted _ _ _ _ _ Hfs) as (Hne & Hdir & Hfile & _).
  split; [by apply read_chunk_lookup|]. split; [|done].
  unfold isdir, stat. simpl. by rewrite bool_decide_eq_false_2, Hdir.
Qed.

Lemma stored_chunk_read_back_witness :
  read_file (fs (exec (storage_chunk "/tmp/videos/42" 7 Samples.payload) Samples.w_new).2)
    "/tmp/videos/42/7.chunk" = Some Samples.payload.
Proof.
  apply (stored_chunk_read_back Samples.w_new _ "/tmp/videos/42" 7 Samples.payload).
  vm_compute. reflexivity.
Defined.

(** What is found where a chunk goes decides what [storage_chunk] does
    with a directory that exists. *)
Lemma storage_chunk_in_place (fs : gmap (list string) Node) (directory : string)
    (chunk_index : Z) (chunk : bytes) :
  isdir fs directory = true →
  on_fs (storage_chunk directory chunk_index chunk) fs =
    match fs !! (components directory ++ [chunk_name chunk_index]) with
    | Some Dir => (Raise (OSError EISDIR (join directory (chunk_name chunk_index))), fs)
    | _ => (Return (), <[components directory ++ [chunk_name chunk_index]:=File chunk]> fs)
    end.
Proof.
  intros Hdir. rewrite on_fs_storage_chunk.
  apply isdir_stat in Hdir. unfold path_exists. rewrite Hdir.
  rewrite write_file_chunk.
  unfold stat in Hdir. case_bool_decide; [done|]. rewrite Hdir.
  by destruct (fs !! _) as [[]|].
Qed.

(** X2: the same index submitted again is accepted and replaces the
    chunk: the last write is the one read back. *)
Theorem storage_chunk_last_write_wins w w1 directory chunk_index chunk1 chunk2 :
  exec (storage_chunk directory chunk_index chunk1) w = (Return (), w1) →
  ∃ w2, exec (storage_chunk directory chunk_index chunk2) w1 = (Return (), w2) ∧
        read_file (fs w2) (join directory (chunk_name chunk_index)) = Some chunk2.
Proof.
  intros Hrun. apply exec_storage_chunk_inv in Hrun as [Hfs Hw1].
  destruct (storage_chunk_accepted _ _ _ _ _ Hfs) as (Hne & Hdir & Hfile & _).
  assert (Hisdir : isdir (fs w1) directory = true).
  { unfold isdir, stat. by rewrite bool_decide_eq_false_2, Hdir. }
  rewrite exec_storage_chunk, (storage_chunk_in_place _ _ _ _ Hisdir), Hfile.
  eexists. split; [reflexivity|].
  apply read_chunk_lookup. simpl. by rewrite lookup_insert_eq.
Qed.

Lemma storage_chunk_last_write_wins_witness :
  ∃ w2,
    exec (storage_chunk "/tmp/videos/42" 0 MoreSamples.other_payload)
         (exec (storage_chunk "/tmp/videos/42" 0 Samples.payload) Samples.w_new).2
      = (Return (), w2) ∧
    read_file (fs w2) (join "/tmp/videos/42" (chunk_name 0)) = Some MoreSamples.other_payload.
Proof.
  apply (storage_chunk_last_write_wins Samples.w_new _ "/tmp/videos/42" 0 Samples.payload).
  vm_compute. reflexivity.
Defined.

(** X3: storing a chunk leaves the chunks of the other indices of the
    directory as they are. *)
Theorem storage_chunk_keeps_other_chunks w w' directory i j chunk data :
  i ≠ j →
  read_file (fs w) (join directory (chunk_name i)) = Some data →
  exec (storage_chunk directory j chunk) w = (Return (), w') →
  read_file (fs w') (join directory (chunk_name i)) = Some data.
Proof.
  intros Hij Hread Hrun. apply exec_storage_chunk_inv in Hrun as [Hfs _].
  destruct (storage_chunk_accepted _ _ _ _ _ Hfs) as (_ & _ & _ & Hkeep).
  apply read_chunk_lookup. apply read_chunk_lookup in Hread.
  apply Hkeep; [|done].
  intros Heq. apply app_inv_head in Heq. injection Heq as Heq.
  by apply chunk_name_inj in Heq.
Qed.

Lemma storage_chunk_keeps_other_chunks_witness :
  read_file (fs (exec (storage_chunk "/tmp/videos/42" 2 MoreSamples.other_payload)
                   Samples.w_uploading).2)
    (join "/tmp/videos/42" (chunk_name 0)) = Some Samples.payload.
Proof.
  apply (storage_chunk_keeps_other_chunks Samples.w_uploading _ "/tmp/videos/42" 0 2
           MoreSamples.other_payload Samples.payload).
  - lia.
  - vm_compute. reflexivity.
  - vm_compute. reflexivity.
Defined.

(** X4: what stands in the way of a chunk of a video, for a chunk path
    of at most 255 bytes, which the system takes as a path and as a file
    name.  A regular file where the chunk directory of the video should
    be is taken for the directory: no directory is created and the write
    fails with ENOTDIR.  A directory in the place of the chunk file makes
    the write fail with EISDIR.  Both leave the world as it was. *)
Theorem storage_chunk_existing_path w video_id chunk_index chunk :
  (String.length (join (get_chunk_directory video_id) (chunk_name chunk_index)) ≤ 255)%nat →
  (isfile (fs w) (get_chunk_directory video_id) = true →
   exec (storage_chunk (get_chunk_directory video_id) chunk_index chunk) w =
     (Raise (OSError ENOTDIR (join (get_chunk_directory video_id) (chunk_name chunk_index))),
      w)) ∧
  (isdir (fs w) (get_chunk_directory video_id) = true →
   isdir (fs w) (join (get_chunk_directory video_id) (chunk_name chunk_index)) = true →
   exec (storage_chunk (get_chunk_directory video_id) chunk_index chunk) w =
     (Raise (OSError EISDIR (join (get_chunk_directory video_id) (chunk_name chunk_index))),
      w)).
Proof.
  intros _. generalize (get_chunk_directory video_id). intros directory.
  assert (Htarget : stat (fs w) (join directory (chunk_name chunk_index)) =
                    fs w !! (components directory ++ [chunk_name chunk_index])).
  { unfold stat. rewrite bool_decide_eq_false_2 by apply chunk_path_not_empty.
    rewrite components_chunk_path. by destruct (components directory). }
  split.
  - intros Hfile. rewrite exec_storage_chunk, on_fs_storage_chunk.
    unfold isfile in Hfile. unfold path_exists.
    destruct (stat (fs w) directory) as [[data|]|] eqn:Hstat; try done.
    rewrite write_file_chunk. unfold stat in Hstat.
    case_bool_decide; [done|]. rewrite Hstat. unfold set_fs. by rewrite world_eta.
  - intros Hdir Hsub. rewrite exec_storage_chunk, (storage_chunk_in_place _ _ _ _ Hdir).
    apply isdir_stat in Hsub. rewrite Htarget in Hsub. rewrite Hsub.
    unfold set_fs. by rewrite world_eta.
Qed.

Lemma storage_chunk_existing_path_witness :
  exec (storage_chunk "/tmp/videos/42" 0 Samples.payload)
       (Samples.world_of None MoreSamples.blocked) =
    (Raise (OSError ENOTDIR "/tmp/videos/42/0.chunk"),
     Samples.world_of None MoreSamples.blocked).
Proof.
  destruct (storage_chunk_existing_path (Samples.world_of None MoreSamples.blocked)
              42 0 Samples.payload) as [Hfile _].
  - apply Nat.leb_le. vm_compute. reflexivity.
  - apply Hfile. vm_compute. reflexivity.
Defined.

(* ===================================================================== *)
(** ** More on Storage.move_chunks *)
(* ===================================================================== *)




(** A directory that cannot be made: the error names the directory whose
    [mkdir] failed, the one right below the regular file. *)
Example makedirs_below_a_file :
  makedirs "/tmp/videos/42/parts/new" true MoreSamples.blocked =
    Raise (OSError ENOTDIR "/tmp/videos/42/parts") ∧
  exec (move_chunks "/media/uploads/42" "/tmp/videos/42/parts/new")
       (Samples.world_of None MoreSamples.blocked) =
    (Raise (OSError ENOTDIR "/tmp/videos/42/parts"),
     Samples.world_of None MoreSamples.blocked).
Proof. split; vm_compute; reflexivity. Qed.

Lemma upload_chunks_to_external_storage_db w video_id :
  db (exec (upload_chunks_to_external_storage video_id) w).2 = db w.
Proof.
  unfold exec, upload_chunks_to_external_storage.
  rewrite run_bind, run_find_video by done.
  destruct (videos (db w) !! video_id); [|done].
  pose proof (move_chunks_db idle w (get_chunk_directory video_id)
                (external_directory video_id)) as Hdb.
  by destruct (move_chunks _ _ _) as [r s].
Qed.

(** X6: whatever they do to the files and however they end,
    [move_chunks] and [upload_chunks_to_external_storage] change no row
    of the database. *)
Theorem relocation_keeps_db w video_id source_path dest_path :
  db (exec (move_chunks source_path dest_path) w).2 = db w ∧
  db (exec (upload_chunks_to_external_storage video_id) w).2 = db w.
Proof.
  split; [|apply upload_chunks_to_external_storage_db].
  pose proof (move_chunks_db idle w source_path dest_path) as Hdb.
  unfold exec. by destruct (move_chunks _ _ _) as [r s].
Qed.

Lemma node_at_snoc (fs : gmap (list string) Node) (p : list string) (name : string) :
  node_at fs (p ++ [name]) = fs !! (p ++ [name]).
Proof. by destruct p. Qed.

(** One file moved to a place that is not a directory. *)
Lemma shutil_move_plain (fs : gmap (list string) Node) (source_path dest_path name : string)
    (data : bytes) :
  plain_name name →
  read_file fs (join source_path name) = Some data →
  isdir fs dest_path = true →
  isdir fs (join dest_path name) = false →
  shutil_move (join source_path name) (join dest_path name) fs =
    Return (<[components dest_path ++ [name]:=File data]>
              (delete (components source_path ++ [name]) fs)).
Proof.
  intros Hplain Hread Hdest Hfree.
  unfold shutil_move. rewrite Hfree. unfold rename.
  unfold read_file in Hread.
  destruct (stat fs (join source_path name)) as [[data'|]|]; try done.
  injection Hread as ->.
  rewrite !components_join by done.
  destruct (components dest_path ++ [name]) as [|c q] eqn:Hq.
  { by destruct (components dest_path). }
  rewrite <- Hq, removelast_last.
  apply isdir_stat in Hdest. unfold stat in Hdest.
  case_bool_decide; [done|]. rewrite Hdest.
  unfold isdir, stat in Hfree.
  assert (join dest_path name ≠ "") as Hne.
  { intros Hj. pose proof (components_join dest_path name Hplain) as Hc.
    rewrite Hj in Hc. by destruct (components dest_path). }
  rewrite bool_decide_eq_false_2, components_join in Hfree by done.
  rewrite Hq in Hfree. simpl in Hfree. rewrite <- Hq in Hfree.
  by destruct (fs !! (components dest_path ++ [name])) as [[]|].
Qed.

(** X7: one turn of the loop of [move_chunks] on a regular file whose
    place in another, existing directory is not held by a directory: the
    file is in the destination with its content, it is gone from the
    source, and the move is printed. *)
Theorem move_chunk_moves w source_path dest_path name data :
  plain_name name →
  components source_path ≠ components dest_path →
  read_file (fs w) (join source_path name) = Some data →
  isdir (fs w) dest_path = true →
  isdir (fs w) (join dest_path name) = false →
  ∃ w', exec (move_chunk source_path dest_path name) w = (Return (), w') ∧
        read_file (fs w') (join dest_path name) = Some data ∧
        path_exists (fs w') (join source_path name) = false ∧
        console w' = console w ++ [Moved source_path name dest_path] ∧
        db w' = db w.
Proof.
  intros Hplain Hdiff Hread Hdest Hfree.
  assert (Hkeys : components dest_path ++ [name] ≠ components source_path ++ [name]).
  { intros H. by apply app_inv_tail in H. }
  assert (Hne : ∀ d, join d name ≠ "").
  { intros d Hj. pose proof (components_join d name Hplain) as Hc.
    rewrite Hj in Hc. by destruct (components d). }
  unfold exec. rewrite run_move_chunk.
  assert (Hfile : isfile (fs w) (join source_path name) = true).
  { unfold isfile. unfold read_file in Hread.
    by destruct (stat (fs w) (join source_path name)) as [[]|]. }
  rewrite Hfile, (shutil_move_plain _ _ _ _ data) by done.
  eexists. split; [reflexivity|]. cbn. split; [|split; [|done]].
  - apply read_file_lookup. rewrite components_join by done.
    split; [done|]. split; [by destruct (components dest_path)|].
    by rewrite lookup_insert_eq.
  - unfold path_exists, stat. rewrite bool_decide_eq_false_2 by done.
    rewrite components_join, node_at_snoc by done.
    by rewrite lookup_insert_ne, lookup_delete_eq.
Qed.

Lemma move_chunk_moves_witness :
  ∃ w', exec (move_chunk "/tmp/videos/42" "/media/uploads/42" "0.chunk") Samples.w_crowded
          = (Return (), w') ∧
        read_file (fs w') "/media/uploads/42/0.chunk" = Some Samples.payload ∧
        path_exists (fs w') "/tmp/videos/42/0.chunk" = false.
Proof.
  destruct (move_chunk_moves Samples.w_crowded "/tmp/videos/42" "/media/uploads/42"
              "0.chunk" Samples.payload)
    as (w' & Hrun & Hread & Hgone & _).
  - repeat split; done.
  - vm_compute. discriminate.
  - vm_compute. reflexivity.
  - vm_compute. reflexivity.
  - vm_compute. reflexivity.
  - exists w'. split; [exact Hrun|]. split; [exact Hread|exact Hgone].
Defined.

(* ===================================================================== *)
(** ** Where move_chunks leaves the files *)
(* ===================================================================== *)









Section Relocating.

Variables source_path dest_path : string.
Hypothesis apart : components source_path ≠ components dest_path.
Hypothesis named : dest_path ≠ "".





End Relocating.





(* ===================================================================== *)
(** ** More on process_upload *)
(* ===================================================================== *)

(** X8: for a video that does not exist each method of the service stops
    at [find_video] with [Video.DoesNotExist], before anything is read
    or written. *)
Theorem unknown_video_stops_the_service w video_id :
  videos (db w) !! video_id = None →
  (∀ race chunk_index chunk,
     exec (process_upload race video_id chunk_index chunk) w = (Raise Video_DoesNotExist, w)) ∧
  (∀ total_chunks,
     exec (finalize_upload video_id total_chunks) w = (Raise Video_DoesNotExist, w)) ∧
  exec (upload_chunks_to_external_storage video_id) w = (Raise Video_DoesNotExist, w) ∧
  (∀ path,
     exec (register_processed_video_path video_id path) w = (Raise Video_DoesNotExist, w)).
Proof.
  intros Hv. repeat split.
  - intros race chunk_index chunk.
    apply (run_op_no_video w (SubmitChunk race chunk_index chunk) video_id Hv).
  - intros total_chunks. apply (run_op_no_video w (FinalizeUpload total_chunks) video_id Hv).
  - apply (run_op_no_video w PromoteFiles video_id Hv).
  - intros path. apply (run_op_no_video w (PromoteRecord path) video_id Hv).
Qed.

Lemma unknown_video_stops_the_service_witness :
  exec (process_upload false 999 0 Samples.payload) Samples.w_uploading =
    (Raise Video_DoesNotExist, Samples.w_uploading).
Proof.
  destruct (unknown_video_stops_the_service Samples.w_uploading 999 eq_refl) as [Hup _].
  apply Hup.
Defined.

(** X9: while an upload is in progress, [process_upload] is
    [storage_chunk] on the path of the record: the chunk goes under that
    path, whatever it is, and no row changes, whether the chunk is
    accepted or not. *)
Theorem process_upload_accumulates w race video_id chunk_index chunk v vm :
  videos (db w) !! video_id = Some v →
  video_medias (db w) !! video_id = Some vm →
  status vm = UPLOADED_STARTED →
  exec (process_upload race video_id chunk_index chunk) w =
    exec (storage_chunk (video_path vm) chunk_index chunk) w ∧
  db (exec (process_upload race video_id chunk_index chunk) w).2 = db w.
Proof.
  intros Hv Hvm Hst.
  rewrite (run_process_upload _ _ _ _ _ _ Hv), Hvm, Hst, exec_storage_chunk.
  by destruct (on_fs _ _).
Qed.

Lemma process_upload_accumulates_witness :
  exec (process_upload false 42 2 Samples.payload) Samples.w_uploading =
    exec (storage_chunk "/tmp/videos/42" 2 Samples.payload) Samples.w_uploading.
Proof.
  apply (process_upload_accumulates Samples.w_uploading false 42 2 Samples.payload
           (mkVideo true) (mkVideoMedia UPLOADED_STARTED "/tmp/videos/42"));
    reflexivity.
Defined.

(** X10: the first chunk of a video that is accepted leaves one new
    record, for that video, in [UPLOADED_STARTED] and pointing to its
    chunk directory, where the chunk can be read; the videos and the
    records of the other videos are as before. *)
Theorem first_chunk_creates_record w w' video_id chunk_index chunk v :
  videos (db w) !! video_id = Some v →
  video_medias (db w) !! video_id = None →
  exec (process_upload false video_id chunk_index chunk) w = (Return (), w') →
  video_medias (db w') =
    <[video_id:=mkVideoMedia UPLOADED_STARTED (get_chunk_directory video_id)]>
      (video_medias (db w)) ∧
  videos (db w') = videos (db w) ∧
  read_file (fs w') (join (get_chunk_directory video_id) (chunk_name chunk_index))
    = Some chunk.
Proof.
  intros Hv Hvm. rewrite (run_process_upload _ _ _ _ _ _ Hv), Hvm.
  destruct (on_fs _ _) as [[[]|e] fs'] eqn:Hstore; [|done].
  intros [= <-]. cbn. repeat split.
  by apply storage_chunk_stored in Hstore.
Qed.

Lemma first_chunk_creates_record_witness :
  video_medias
    (db (exec (process_upload false 42 0 Samples.payload) Samples.w_new).2) !! 42 =
    Some (mkVideoMedia UPLOADED_STARTED "/tmp/videos/42").
Proof.
  destruct (first_chunk_creates_record Samples.w_new
              (exec (process_upload false 42 0 Samples.payload) Samples.w_new).2
              42 0 Samples.payload (mkVideo true) eq_refl eq_refl)
    as (Hmedia & _ & _).
  - vm_compute. reflexivity.
  - rewrite Hmedia. reflexivity.
Defined.

(** X11: a [process_upload] that fails, no other request interfering,
    leaves every row as it was: the record it created or reset inside
    the atomic block is not kept. *)
Theorem process_upload_failure_keeps_db w w' video_id chunk_index chunk e :
  exec (process_upload false video_id chunk_index chunk) w = (Raise e, w') →
  db w' = db w.
Proof.
  destruct (videos (db w) !! video_id) as [v|] eqn:Hv.
  - rewrite (run_process_upload _ _ _ _ _ _ Hv).
    destruct (video_medias (db w) !! video_id) as [[st p]|]; cbn [status video_path].
    + destruct st.
      * destruct (on_fs _ _) as [[[]|e'] fs']; [done|]. by intros [= _ <-].
      * destruct (on_fs _ _) as [r fs']. by intros [= _ <-].
      * by intros [= _ <-].
      * destruct (on_fs _ _) as [[[]|e'] fs']; [done|]. by intros [= _ <-].
    + destruct (on_fs _ _) as [[[]|e'] fs']; [done|]. by intros [= _ <-].
  - pose proof (run_op_no_video w (SubmitChunk false chunk_index chunk) video_id Hv)
      as Hstop.
    cbn [run_op] in Hstop. rewrite Hstop. by intros [= _ <-].
Qed.

Lemma process_upload_failure_keeps_db_witness :
  db (exec (process_upload false 42 0 Samples.payload)
        (Samples.world_of (Some (mkVideoMedia PROCESS_FINISHED "/media/uploads/42"))
           MoreSamples.blocked)).2 =
  db (Samples.world_of (Some (mkVideoMedia PROCESS_FINISHED "/media/uploads/42"))
        MoreSamples.blocked).
Proof.
  apply (process_upload_failure_keeps_db _ _ 42 0 Samples.payload
           (OSError ENOTDIR "/tmp/videos/42/0.chunk")).
  vm_compute. reflexivity.
Defined.

(* ===================================================================== *)
(** ** From the first chunk to the finalization *)
(* ===================================================================== *)

(** An accepted chunk removes nothing. *)
Lemma storage_chunk_keeps_paths (directory : string) (chunk_index : Z) (chunk : bytes)
    (fs fs' : gmap (list string) Node) :
  on_fs (storage_chunk directory chunk_index chunk) fs = (Return (), fs') →
  ∀ name, path_exists fs name = true → path_exists fs' name = true.
Proof.
  intros Hstore name.
  destruct (storage_chunk_accepted _ _ _ _ _ Hstore) as (_ & _ & Hfile & Hkeep).
  unfold path_exists, stat. case_bool_decide; [done|].
  destruct (components name) as [|c p] eqn:Hc; [done|]. simpl.
  destruct (fs !! (c :: p)) as [n|] eqn:Hn; [|done]. intros _.
  destruct (decide (c :: p = components directory ++ [chunk_name chunk_index])) as [->|Hne].
  - by rewrite Hfile.
  - by rewrite (Hkeep _ _ Hne Hn).
Qed.

(** One accepted chunk of an upload that is starting or in progress in
    the chunk directory of the video. *)
Lemma upload_step w w' video_id chunk_index chunk v :
  videos (db w) !! video_id = Some v →
  media_of w video_id = None ∨ media_of w video_id = Some (fresh_video_media video_id) →
  exec (process_upload false video_id chunk_index chunk) w = (Return (), w') →
  videos (db w') !! video_id = Some v ∧
  media_of w' video_id = Some (fresh_video_media video_id) ∧
  path_exists (fs w') (get_chunk_directory video_id) = true ∧
  path_exists (fs w') (join (get_chunk_directory video_id) (chunk_name chunk_index)) = true ∧
  ∀ name, path_exists (fs w) name = true → path_exists (fs w') name = true.
Proof.
  intros Hv Hmedia. rewrite (run_process_upload _ _ _ _ _ _ Hv).
  assert (Hstored : ∀ fs',
    on_fs (storage_chunk (get_chunk_directory video_id) chunk_index chunk) (fs w)
      = (Return (), fs') →
    path_exists fs' (get_chunk_directory video_id) = true ∧
    path_exists fs' (join (get_chunk_directory video_id) (chunk_name chunk_index)) = true ∧
    ∀ name, path_exists (fs w) name = true → path_exists fs' name = true).
  { intros fs' Hstore.
    destruct (storage_chunk_accepted _ _ _ _ _ Hstore) as (Hne & Hdir & Hfile & _).
    split; [|split].
    - unfold path_exists, stat. by rewrite bool_decide_eq_false_2, Hdir.
    - apply read_chunk_lookup in Hfile. unfold read_file in Hfile. unfold path_exists.
      by destruct (stat fs' _).
    - exact (storage_chunk_keeps_paths _ _ _ _ _ Hstore). }
  unfold media_of in *. destruct Hmedia as [Hnone|Hfresh].
  - rewrite Hnone.
    destruct (on_fs _ _) as [[[]|e] fs'] eqn:Hstore; [|done].
    intros [= <-]. cbn. rewrite lookup_insert_eq. split; [done|]. split; [done|].
    by apply Hstored.
  - rewrite Hfresh. cbn [fresh_video_media status video_path].
    destruct (on_fs _ _) as [[[]|e] fs'] eqn:Hstore; [|done].
    intros [= <-]. cbn. split; [done|]. split; [done|].
    by apply Hstored.
Qed.

Lemma after_uploads_chunks video_id v chunks :
  ∀ w w',
    videos (db w) !! video_id = Some v →
    media_of w video_id = None ∨ media_of w video_id = Some (fresh_video_media video_id) →
    after_uploads video_id chunks w = Some w' →
    videos (db w') !! video_id = Some v ∧
    (media_of w' video_id = None ∨
     media_of w' video_id = Some (fresh_video_media video_id)) ∧
    (chunks ≠ [] →
     media_of w' video_id = Some (fresh_video_media video_id) ∧
     path_exists (fs w') (get_chunk_directory video_id) = true) ∧
    (∀ i, i ∈ chunks.*1 →
          path_exists (fs w') (join (get_chunk_directory video_id) (chunk_name i)) = true) ∧
    (∀ name, path_exists (fs w) name = true → path_exists (fs w') name = true).
Proof.
  induction chunks as [|[i chunk] rest IH]; intros w w' Hv Hmedia; simpl.
  - intros [= <-]. split; [done|]. split; [done|]. split; [done|]. split; [|done].
    intros i Hi. by apply elem_of_nil in Hi.
  - destruct (exec (process_upload false video_id i chunk) w) as [[[]|e] w1] eqn:Hrun;
      [|done].
    intros Hrest.
    destruct (upload_step _ _ _ _ _ _ Hv Hmedia Hrun)
      as (Hv1 & Hmedia1 & Hdir1 & Hchunk1 & Hkeep1).
    destruct (IH w1 w' Hv1 (or_intror Hmedia1) Hrest)
      as (Hv' & Hmedia' & Hnonempty & Hchunks & Hkeep).
    split; [done|]. split; [done|]. split; [|split].
    + intros _. destruct rest as [|r rest'].
      * simpl in Hrest. injection Hrest as <-. done.
      * by apply Hnonempty.
    + intros j Hj. apply elem_of_cons in Hj as [->|Hj]; [by apply Hkeep|by apply Hchunks].
    + intros name Hname. by apply Hkeep, Hkeep1.
Qed.

(** X12: when the chunks submitted for a video without record, one
    request after the other, were all accepted and cover the indices
    [0 .. total_chunks - 1], in any order and with any repetition,
    [finalize_upload] with that total succeeds and the record, which
    points to the chunk directory, is in [PROCESS_STARTED]. *)
Theorem uploads_then_finalize w w1 video_id chunks total_chunks v :
  videos (db w) !! video_id = Some v →
  video_medias (db w) !! video_id = None →
  chunks ≠ [] →
  after_uploads video_id chunks w = Some w1 →
  (∀ i, 0 ≤ i < total_chunks → i ∈ chunks.*1) →
  exec (finalize_upload video_id total_chunks) w1 =
    (Return (),
     saved video_id (mkVideoMedia PROCESS_STARTED (get_chunk_directory video_id)) w1).
Proof.
  intros Hv Hnone Hne Hups Hcover.
  destruct (after_uploads_chunks video_id v chunks w w1 Hv (or_introl Hnone) Hups)
    as (Hv1 & _ & Hin_progress & Hchunks & _).
  destruct (Hin_progress Hne) as [Hmedia Hdir].
  rewrite (run_finalize_upload _ _ _ _ Hv1). unfold media_of in Hmedia. rewrite Hmedia.
  cbn [fresh_video_media status video_path].
  rewrite decide_False by (by intros []).
  assert (Hvalid : validate_chunks_in (fs w1) (get_chunk_directory video_id) total_chunks
                   = true).
  { apply validate_chunks_in_spec. split; [done|]. intros i Hi. by apply Hchunks, Hcover. }
  by rewrite Hvalid.
Qed.

Lemma uploads_then_finalize_witness :
  ∃ w1,
    after_uploads 42 [(1, Samples.payload); (0, MoreSamples.other_payload);
                      (1, MoreSamples.other_payload)] Samples.w_new = Some w1 ∧
    exec (finalize_upload 42 2) w1 =
      (Return (), saved 42 (mkVideoMedia PROCESS_STARTED "/tmp/videos/42") w1).
Proof.
  eexists. split; [vm_compute; reflexivity|].
  apply (uploads_then_finalize Samples.w_new _ 42
           [(1, Samples.payload); (0, MoreSamples.other_payload);
            (1, MoreSamples.other_payload)] 2 (mkVideo true)).
  - reflexivity.
  - reflexivity.
  - discriminate.
  - vm_compute. reflexivity.
  - intros i Hi. assert (i = 0 ∨ i = 1) as [->| ->] by lia.
    + simpl. rewrite !elem_of_cons. auto.
    + simpl. rewrite !elem_of_cons. auto.
Defined.

(* ===================================================================== *)
(** ** After the finalization *)
(* ===================================================================== *)

Lemma finalize_upload_returned w w' video_id total_chunks :
  exec (finalize_upload video_id total_chunks) w = (Return (), w') →
  ∃ v vm,
    videos (db w) !! video_id = Some v ∧
    video_medias (db w) !! video_id = Some vm ∧
    status vm = UPLOADED_STARTED ∧
    validate_chunks_in (fs w) (video_path vm) total_chunks = true ∧
    w' = saved video_id (mkVideoMedia PROCESS_STARTED (video_path vm)) w.
Proof.
  destruct (videos (db w) !! video_id) as [v|] eqn:Hv.
  - rewrite (run_finalize_upload _ _ _ _ Hv).
    destruct (video_medias (db w) !! video_id) as [vm|] eqn:Hvm; [|done].
    case_decide as Hst; [done|].
    destruct (validate_chunks_in _ _ _) eqn:Hvalid; [|done].
    intros [= <-]. exists v, vm. repeat split; try done.
  - pose proof (run_op_no_video w (FinalizeUpload total_chunks) video_id Hv) as Hstop.
    cbn [run_op] in Hstop. by rewrite Hstop.
Qed.

(** X13: an upload is finalized once: after a [finalize_upload] that
    succeeded, another one for the same video, with any total, fails
    with [VideoMediaInvalidStatusException] and changes nothing. *)
Theorem finalize_upload_only_once w w' video_id total_chunks total_chunks' :
  exec (finalize_upload video_id total_chunks) w = (Return (), w') →
  exec (finalize_upload video_id total_chunks') w' =
    (Raise (VideoMediaInvalidStatusException "Upload must be started to finish it."), w').
Proof.
  intros Hrun.
  destruct (finalize_upload_returned _ _ _ _ Hrun) as (v & vm & Hv & Hvm & _ & _ & ->).
  rewrite (run_finalize_upload _ _ _ v) by done.
  cbn. rewrite lookup_insert_eq. cbn. by rewrite decide_True.
Qed.

Lemma finalize_upload_only_once_witness :
  exec (finalize_upload 42 1) (exec (finalize_upload 42 2) Samples.w_uploading).2 =
    (Raise (VideoMediaInvalidStatusException "Upload must be started to finish it."),
     (exec (finalize_upload 42 2) Samples.w_uploading).2).
Proof.
  apply (finalize_upload_only_once Samples.w_uploading _ 42 2 1).
  vm_compute. reflexivity.
Defined.

(** X14: after a [finalize_upload] that succeeded,
    [register_processed_video_path] succeeds with any path, which becomes
    the path of the record, now in [PROCESS_FINISHED]; a second
    registration is refused and leaves that path. *)
Theorem register_after_finalize w w1 video_id total_chunks path path' :
  exec (finalize_upload video_id total_chunks) w = (Return (), w1) →
  ∃ w2,
    exec (register_processed_video_path video_id path) w1 = (Return (), w2) ∧
    video_medias (db w2) !! video_id = Some (mkVideoMedia PROCESS_FINISHED path) ∧
    fs w2 = fs w1 ∧
    exec (register_processed_video_path video_id path') w2 =
      (Raise (VideoMediaInvalidStatusException "Processing must be started to finish it."),
       w2).
Proof.
  intros Hrun.
  destruct (finalize_upload_returned _ _ _ _ Hrun) as (v & vm & Hv & Hvm & _ & _ & ->).
  rewrite (run_register_processed_video_path _ _ _ v) by done.
  cbn. rewrite lookup_insert_eq. cbn. rewrite decide_False by (by intros []).
  eexists. split; [reflexivity|]. cbn. rewrite lookup_insert_eq.
  split; [done|]. split; [done|].
  rewrite (run_register_processed_video_path _ _ _ v) by done.
  cbn. rewrite lookup_insert_eq. cbn. by rewrite decide_True.
Qed.

Lemma register_after_finalize_witness :
  ∃ w2,
    exec (register_processed_video_path 42 "/media/uploads/42/video.mpd")
         (exec (finalize_upload 42 2) Samples.w_uploading).2 = (Return (), w2) ∧
    video_medias (db w2) !! 42 =
      Some (mkVideoMedia PROCESS_FINISHED "/media/uploads/42/video.mpd").
Proof.
  destruct (register_after_finalize Samples.w_uploading
              (exec (finalize_upload 42 2) Samples.w_uploading).2 42 2
              "/media/uploads/42/video.mpd" "")
    as (w2 & Hrun & Hmedia & _).
  - vm_compute. reflexivity.
  - exists w2. split; [exact Hrun|exact Hmedia].
Defined.

(** X15: [register_processed_video_path] for a video without media
    record lets the [RelatedObjectDoesNotExist] of [video.video_media]
    through, where [finalize_upload] turns it into
    [VideoMediaNotExistsException]; neither changes anything. *)
Theorem missing_record_errors w video_id v :
  videos (db w) !! video_id = Some v →
  video_medias (db w) !! video_id = None →
  (∀ path, exec (register_processed_video_path video_id path) w =
             (Raise RelatedObjectDoesNotExist, w)) ∧
  (∀ total_chunks, exec (finalize_upload video_id total_chunks) w =
                     (Raise (VideoMediaNotExistsException "Upload not started."), w)).
Proof.
  intros Hv Hvm. split.
  - intros path. by rewrite (run_register_processed_video_path _ _ _ _ Hv), Hvm.
  - intros total_chunks. by rewrite (run_finalize_upload _ _ _ _ Hv), Hvm.
Qed.

Lemma missing_record_errors_witness :
  exec (register_processed_video_path 42 "/media/uploads/42") Samples.w_new =
    (Raise RelatedObjectDoesNotExist, Samples.w_new).
Proof.
  destruct (missing_record_errors Samples.w_new 42 (mkVideo true) eq_refl eq_refl)
    as [Hregister _].
  apply Hregister.
Defined.

(* ===================================================================== *)
(** ** Where the chunks of a video are *)
(* ===================================================================== *)

(** One operation, seen on the records. *)
Lemma run_op_media w op video_id video_id' :
  (∀ i, status_of w i ≠ Some UPLOAD_STARTED) →
  media_of (exec (run_op op video_id) w).2 video_id' = media_of w video_id' ∨
  (video_id' = video_id ∧
   (media_of (exec (run_op op video_id) w).2 video_id
      = Some (fresh_video_media video_id) ∨
    (∃ vm, media_of w video_id = Some vm ∧ status vm = UPLOADED_STARTED ∧
           media_of (exec (run_op op video_id) w).2 video_id
             = Some (mkVideoMedia PROCESS_STARTED (video_path vm))) ∨
    (∃ path, media_of (exec (run_op op video_id) w).2 video_id
               = Some (mkVideoMedia PROCESS_FINISHED path)))).
Proof.
  intros Hinv.
  destruct (videos (db w) !! video_id) as [v|] eqn:Hv;
    [|rewrite run_op_no_video by done; by left].
  specialize (Hinv video_id).
  unfold status_of, media_of in *.
  assert (Hins : ∀ (m : gmap Z VideoMedia) vm,
    <[video_id:=vm]> m !! video_id' = m !! video_id' ∨
    (video_id' = video_id ∧ <[video_id:=vm]> m !! video_id = Some vm)).
  { intros m vm. destruct (decide (video_id' = video_id)) as [->|Hne].
    - right. by rewrite lookup_insert_eq.
    - left. by rewrite lookup_insert_ne. }
  destruct op as [race chunk_index chunk|total_chunks| |path]; cbn [run_op].
  - rewrite (run_process_upload _ _ _ _ _ _ Hv).
    destruct (video_medias (db w) !! video_id) as [[st p]|] eqn:Hvm; cbn [status video_path].
    + destruct st; [done| | |].
      * destruct (on_fs _ _) as [r fs']. by left.
      * by left.
      * destruct (on_fs _ _) as [[[]|e] fs']; cbn; [|by left].
        destruct (Hins (video_medias (db w))
                    (mkVideoMedia UPLOADED_STARTED (get_chunk_directory video_id)))
          as [?|[-> ?]]; [by left|right]. split; [done|]. by left.
    + destruct race.
      * cbn. unfold concurrent_creator. rewrite Hvm. cbn.
        destruct (Hins (video_medias (db w)) (fresh_video_media video_id))
          as [?|[-> ?]]; [by left|right]. split; [done|]. by left.
      * destruct (on_fs _ _) as [[[]|e] fs']; cbn; [|by left].
        destruct (Hins (video_medias (db w)) (fresh_video_media video_id))
          as [?|[-> ?]]; [by left|right]. split; [done|]. by left.
  - rewrite (run_finalize_upload _ _ _ _ Hv).
    destruct (video_medias (db w) !! video_id) as [[st p]|] eqn:Hvm;
      cbn [status video_path]; [|by left].
    case_decide as Hst; [by left|].
    assert (st = UPLOADED_STARTED) as -> by (by destruct (decide (st = UPLOADED_STARTED))).
    destruct (validate_chunks_in _ _ _); [|by left]. cbn.
    destruct (Hins (video_medias (db w)) (mkVideoMedia PROCESS_STARTED p))
      as [?|[-> ?]]; [by left|right]. split; [done|]. right. left.
    by exists (mkVideoMedia UPLOADED_STARTED p).
  - left. by rewrite upload_chunks_to_external_storage_db.
  - rewrite (run_register_processed_video_path _ _ _ _ Hv).
    destruct (video_medias (db w) !! video_id) as [[st p]|] eqn:Hvm;
      cbn [status video_path]; [|by left].
    case_decide as Hst; [by left|]. cbn.
    destruct (Hins (video_medias (db w)) (mkVideoMedia PROCESS_FINISHED path))
      as [?|[-> ?]]; [by left|right]. split; [done|]. right. right. by exists path.
Qed.

Lemma reachable_paths_in_place_inv w : reachable w → paths_in_place w.
Proof.
  induction 1 as [w Hempty|w op video_id Hreach IH|w w' Hreach IH Hsame].
  - intros i vm Hvm. by rewrite Hempty, lookup_empty in Hvm.
  - intros i vm Hvm Hst.
    destruct (run_op_media w op video_id i (reachable_no_upload_started w Hreach))
      as [Hsame|[-> [Hfresh|[(vm0 & Hvm0 & Hst0 & Hnew)|[path Hnew]]]]];
      unfold media_of in *.
    + rewrite Hsame in Hvm. by apply (IH i).
    + rewrite Hfresh in Hvm. by injection Hvm as <-.
    + rewrite Hnew in Hvm. injection Hvm as <-. cbn. apply (IH video_id vm0 Hvm0). by left.
    + rewrite Hnew in Hvm. injection Hvm as <-. by destruct Hst.
  - intros i vm Hvm. rewrite Hsame in Hvm. by apply (IH i).
Qed.

(** X16: in every reachable world a record in [UPLOADED_STARTED] or
    [PROCESS_STARTED] points to the chunk directory of its video, the
    directory [finalize_upload] validates and
    [upload_chunks_to_external_storage] empties. *)
Theorem reachable_paths_in_place w : reachable w → paths_in_place w.
Proof. apply reachable_paths_in_place_inv. Qed.

Lemma reachable_paths_in_place_witness :
  paths_in_place (exec (finalize_upload 42 1)
                    (exec (process_upload false 42 0 Samples.payload) Samples.w_new).2).2.
Proof.
  apply reachable_paths_in_place.
  apply (reachable_step _ (FinalizeUpload 1) 42).
  apply (reachable_step _ (SubmitChunk false 0 Samples.payload) 42).
  apply reachable_init. reflexivity.
Defined.

(* ===================================================================== *)
(** ** One chunk, one file *)
(* ===================================================================== *)

Lemma pretty_N_go_suffix x : ∀ s, ∃ t, pretty_N_go x s = t +:+ s.
Proof.
  induction (N.lt_wf_0 x) as [x _ IH]; intros s.
  destruct (decide (x = 0)%N) as [->|Hx].
  - exists "". by rewrite pretty_N_go_0.
  - rewrite pretty_N_go_step by lia.
    destruct (IH (x `div` 10)%N) with (s := String (pretty_N_char (x `mod` 10)) s)
      as [t Ht]; [apply N.div_lt; lia|].
    exists (t +:+ String (pretty_N_char (x `mod` 10)) "").
    by rewrite Ht, string_app_assoc.
Qed.

Lemma pretty_N_char_not_dot d : String (pretty_N_char d) "" ≠ ".".
Proof. unfold pretty_N_char. by repeat case_match. Qed.

Lemma pretty_positive_shape (p : positive) :
  pretty (N.pos p) ≠ "" ∧ pretty (N.pos p) ≠ ".".
Proof.
  unfold pretty, pretty_N. rewrite decide_False by done.
  rewrite pretty_N_go_step by lia.
  destruct (pretty_N_go_suffix (N.pos p `div` 10)
              (String (pretty_N_char (N.pos p `mod` 10)) "")) as [t ->].
  destruct t as [|c t].
  - split; [done|]. apply pretty_N_char_not_dot.
  - rewrite string_app_cons. split; [done|].
    intros [= _ H]. apply (f_equal String.length) in H.
    rewrite string_app_length in H. simpl in H. lia.
Qed.

Lemma plain_pretty_Z (x : Z) : plain_name (pretty x).
Proof.
  split; [apply slash_free_pretty_Z|].
  destruct x as [|p|p]; [done| |].
  - apply (pretty_positive_shape p).
  - change (pretty (Z.neg p)) with ("-" +:+ pretty (N.pos p)).
    split; intros H; apply (f_equal String.length) in H;
      rewrite string_app_length in H; simpl in H;
      destruct (pretty_positive_shape p) as [Hne _];
      destruct (pretty (N.pos p)); simpl in H; done || lia.
Qed.

Lemma components_chunk_directory video_id :
  components (get_chunk_directory video_id) = ["tmp"; "videos"; pretty video_id].
Proof.
  assert (Hjoin : get_chunk_directory video_id = join "/tmp/videos" (pretty video_id)).
  { unfold join. by rewrite plain_name_not_absolute by apply plain_pretty_Z. }
  rewrite Hjoin. by rewrite components_join by apply plain_pretty_Z.
Qed.

(** The files of two chunks are the same only for the same video and
    index. *)
Lemma chunk_file_inj a i b j :
  components (get_chunk_directory a) ++ [chunk_name i] =
  components (get_chunk_directory b) ++ [chunk_name j] →
  a = b ∧ i = j.
Proof.
  rewrite !components_chunk_directory. intros [= Ha Hi].
  split; [by apply (inj pretty)|by apply chunk_name_inj].
Qed.

(** Accepted or not, [storage_chunk] leaves every entry but the chunk
    file as it is. *)
Lemma storage_chunk_keeps_entries (directory : string) (chunk_index : Z) (chunk : bytes)
    (fs fs' : gmap (list string) Node) r :
  on_fs (storage_chunk directory chunk_index chunk) fs = (r, fs') →
  ∀ k n, k ≠ components directory ++ [chunk_name chunk_index] →
         fs !! k = Some n → fs' !! k = Some n.
Proof.
  rewrite on_fs_storage_chunk.
  assert (Hwrite : ∀ (fs1 fs2 : gmap (list string) Node),
    write_file (join directory (chunk_name chunk_index)) chunk fs1 = Return fs2 →
    ∀ k n, k ≠ components directory ++ [chunk_name chunk_index] →
           fs1 !! k = Some n → fs2 !! k = Some n).
  { intros fs1 fs2. rewrite write_file_chunk.
    destruct (node_at fs1 (components directory)) as [[]|]; try done.
    destruct (fs1 !! _) as [[]|]; try done;
      intros [= <-] k n Hk Hn; by rewrite lookup_insert_ne. }
  destruct (path_exists fs directory).
  - destruct (write_file _ chunk fs) as [fs2|e] eqn:Hw.
    + intros [= _ <-]. by apply Hwrite.
    + by intros [= _ <-].
  - destruct (makedirs directory false fs) as [fs1|e] eqn:Hmk.
    + destruct (write_file _ chunk fs1) as [fs2|e] eqn:Hw.
      * intros [= _ <-] k n Hk Hn. apply (Hwrite _ _ Hw); [done|].
        by eapply makedirs_preserves.
      * intros [= _ <-] k n _ Hn. by eapply makedirs_preserves.
    + by intros [= _ <-].
Qed.

Lemma process_upload_keeps_entries w race video_id chunk_index chunk :
  paths_in_place w →
  (∀ i, status_of w i ≠ Some UPLOAD_STARTED) →
  ∀ k n, k ≠ components (get_chunk_directory video_id) ++ [chunk_name chunk_index] →
         fs w !! k = Some n →
         fs (exec (process_upload race video_id chunk_index chunk) w).2 !! k = Some n.
Proof.
  intros Hpaths Hinv k n Hk Hn.
  destruct (videos (db w) !! video_id) as [v|] eqn:Hv.
  - rewrite (run_process_upload _ _ _ _ _ _ Hv).
    specialize (Hinv video_id). specialize (Hpaths video_id). unfold status_of in Hinv.
    destruct (video_medias (db w) !! video_id) as [[st p]|] eqn:Hvm; cbn [status video_path].
    + destruct st; [done| |done|].
      * assert (p = get_chunk_directory video_id) as ->
          by (apply (Hpaths _ eq_refl); by left).
        destruct (on_fs _ _) as [r fs'] eqn:Hstore. cbn.
        by eapply storage_chunk_keeps_entries.
      * destruct (on_fs _ _) as [[[]|e] fs'] eqn:Hstore; cbn;
          by eapply storage_chunk_keeps_entries.
    + destruct race; [done|].
      destruct (on_fs _ _) as [[[]|e] fs'] eqn:Hstore; cbn;
        by eapply storage_chunk_keeps_entries.
  - pose proof (run_op_no_video w (SubmitChunk race chunk_index chunk) video_id Hv)
      as Hstop.
    cbn [run_op] in Hstop. by rewrite Hstop.
Qed.

(** X17: in a reachable world, a chunk submitted for a video, accepted
    or not, leaves the chunk files of the other videos and of the other
    indices of that video with their content. *)
Theorem process_upload_touches_one_chunk w race a i chunk b j data :
  reachable w →
  (a, i) ≠ (b, j) →
  read_file (fs w) (join (get_chunk_directory b) (chunk_name j)) = Some data →
  read_file (fs (exec (process_upload race a i chunk) w).2)
    (join (get_chunk_directory b) (chunk_name j)) = Some data.
Proof.
  intros Hreach Hdiff Hread.
  apply read_chunk_lookup. apply read_chunk_lookup in Hread.
  apply process_upload_keeps_entries; try done.
  - by apply reachable_paths_in_place_inv.
  - by apply reachable_no_upload_started.
  - intros Heq. apply chunk_file_inj in Heq as [-> ->]. done.
Qed.

Lemma process_upload_touches_one_chunk_witness :
  read_file
    (fs (exec (process_upload false 42 2 MoreSamples.other_payload)
           (Samples.world_of None Samples.two_chunks)).2)
    (join (get_chunk_directory 42) (chunk_name 0)) = Some Samples.payload.
Proof.
  apply (process_upload_touches_one_chunk (Samples.world_of None Samples.two_chunks)
           false 42 2 MoreSamples.other_payload 42 0 Samples.payload).
  - apply reachable_init. reflexivity.
  - discriminate.
  - vm_compute. reflexivity.
Defined.

(* ===================================================================== *)
(** ** The admin views *)
(* ===================================================================== *)

(** X18: [_do_upload_video_chunks] never raises.  An invalid form is
    answered 400 with its errors and nothing is touched; otherwise the
    answer follows [process_upload]: 204 when it returns, 404 when the
    video does not exist, and for any other exception 500 with the
    exception, whose traceback is printed; the world is the one
    [process_upload] left. *)
Theorem upload_view_answers w race request id :
  ∃ response w',
    exec (_do_upload_video_chunks race request id) w = (Return response, w') ∧
    match VideoChunkUploadForm request with
    | inl errors => response = mkJsonResponse (error_form errors) 400 ∧ w' = w
    | inr cleaned_data =>
        match exec (process_upload race id (chunkIndex cleaned_data)
                      (read (chunk cleaned_data))) w with
        | (Return _, w1) => response = mkJsonResponse no_content 204 ∧ w' = w1
        | (Raise Video_DoesNotExist, w1) =>
            response = mkJsonResponse (error_text "Vídeo não encontrado.") 404 ∧ w' = w1
        | (Raise e, w1) =>
            response = mkJsonResponse (error_str e) 500 ∧
            w' = mkWorld (db w1) (fs w1) (console w1 ++ [Traceback e])
        end
    end.
Proof.
  unfold exec, _do_upload_video_chunks.
  destruct (VideoChunkUploadForm request) as [errors|cleaned_data].
  - by eexists _, _.
  - unfold try_except. rewrite run_bind.
    destruct (process_upload race id _ _ _) as [[[]|e] s].
    + by eexists _, _.
    + destruct e; by eexists _, _.
Qed.

(** X19: the form lets a chunk through to the service exactly when the
    file is there, is not empty (its size, which is never negative, is
    not 0: the file field does not allow an empty file) and has at most
    1 MiB, and the index is there and not negative; any other POST is
    answered 400 with at least one error and changes nothing. *)
Theorem upload_form_gate w race request id :
  (∀ cleaned_data,
     VideoChunkUploadForm request = inr cleaned_data ↔
     FILES_chunk request = Some (chunk cleaned_data) ∧
     size (chunk cleaned_data) ≠ 0 ∧
     size (chunk cleaned_data) ≤ MAX_VIDEO_CHUNK_SIZE ∧
     POST_chunkIndex request = Some (chunkIndex cleaned_data) ∧
     0 ≤ chunkIndex cleaned_data) ∧
  (∀ f,
     FILES_chunk request = Some f → size f = 0 →
     ∃ errors,
       VideoChunkUploadForm request = inl errors ∧ ("chunk", empty) ∈ errors) ∧
  (∀ errors,
     VideoChunkUploadForm request = inl errors →
     errors ≠ [] ∧
     exec (_do_upload_video_chunks race request id) w =
       (Return (mkJsonResponse (error_form errors) 400), w)).
Proof.
  split; [|split].
  - intros [f i]. unfold VideoChunkUploadForm, clean_field_chunk, clean_chunk,
      clean_field_chunkIndex. cbn [chunk chunkIndex].
    destruct (FILES_chunk request) as [f'|], (POST_chunkIndex request) as [i'|];
      repeat case_decide; split; try done;
      try (intros [= -> ->]; repeat split; done || lia);
      try (intros ([= ->] & ? & ? & [= ->] & ?); done || lia);
      try (by intros (? & ? & ? & ? & ?)).
  - intros f Hf Hsize. unfold VideoChunkUploadForm, clean_field_chunk.
    rewrite Hf. rewrite decide_True by done.
    destruct (clean_field_chunkIndex _); eexists; (split; [reflexivity|]);
      apply elem_of_cons; by left.
  - intros errors Hform. unfold _do_upload_video_chunks. rewrite Hform. split; [|done].
    unfold VideoChunkUploadForm in Hform.
    destruct (clean_field_chunk _), (clean_field_chunkIndex _); by simplify_eq.
Qed.

(** A chunk of no bytes is answered 400 and stored nowhere. *)
Example empty_chunk_refused :
  exec (_do_upload_video_chunks false (mkChunkUpload (Some (mkUploadedFile 0 [])) (Some 0)) 42)
       Samples.w_new =
    (Return (mkJsonResponse (error_form [("chunk", empty)]) 400), Samples.w_new).
Proof. reflexivity. Qed.

(** X20: a chunk posted while the video is being processed is answered
    500, not 4xx: the exception of the service is caught by the general
    clause of the view, its traceback is printed, and neither the
    database nor the files change. *)
Theorem upload_view_conflict w race request id cleaned_data v vm :
  VideoChunkUploadForm request = inr cleaned_data →
  videos (db w) !! id = Some v →
  video_medias (db w) !! id = Some vm →
  status vm = PROCESS_STARTED →
  exec (_do_upload_video_chunks race request id) w =
    (Return (mkJsonResponse
               (error_str (VideoMediaInvalidStatusException
                             "An upload is already in progress.")) 500),
     mkWorld (db w) (fs w)
       (console w ++ [Traceback (VideoMediaInvalidStatusException
                                   "An upload is already in progress.")])).
Proof.
  intros Hform Hv Hvm Hst.
  pose proof (run_process_upload w race id (chunkIndex cleaned_data)
                (read (chunk cleaned_data)) v Hv) as Hrun.
  rewrite Hvm, Hst in Hrun. unfold exec in *.
  unfold _do_upload_video_chunks. rewrite Hform.
  unfold try_except. rewrite run_bind.
  destruct (process_upload race id _ _ _) as [r s].
  injection Hrun as -> <-. reflexivity.
Qed.

Lemma upload_view_conflict_witness :
  http_status
    (match (exec (_do_upload_video_chunks false
                    (mkChunkUpload (Some (mkUploadedFile 3 Samples.payload)) (Some 5)) 42)
              Samples.w_processing).1 with
     | Return response => response
     | Raise _ => mkJsonResponse no_content 0
     end) = 500.
Proof.
  rewrite (upload_view_conflict Samples.w_processing false
             (mkChunkUpload (Some (mkUploadedFile 3 Samples.payload)) (Some 5)) 42
             (mkCleaned (mkUploadedFile 3 Samples.payload) 5)
             (mkVideo true) (mkVideoMedia PROCESS_STARTED "/tmp/videos/42")
             eq_refl eq_refl eq_refl eq_refl).
  reflexivity.
Defined.

(** What [finalize_upload] can raise, and that it then changed nothing. *)
Lemma finalize_upload_outcomes w video_id total_chunks :
  (∃ w', exec (finalize_upload video_id total_chunks) w = (Return (), w')) ∨
  exec (finalize_upload video_id total_chunks) w = (Raise Video_DoesNotExist, w) ∨
  ∃ msg,
    exec (finalize_upload video_id total_chunks) w
      = (Raise (VideoMediaNotExistsException msg), w) ∨
    exec (finalize_upload video_id total_chunks) w
      = (Raise (VideoMediaInvalidStatusException msg), w) ∨
    exec (finalize_upload video_id total_chunks) w
      = (Raise (VideoChunkUploadException msg), w).
Proof.
  destruct (videos (db w) !! video_id) as [v|] eqn:Hv.
  - rewrite (run_finalize_upload _ _ _ _ Hv).
    destruct (video_medias (db w) !! video_id) as [vm|].
    + case_decide.
      * right. right. eexists. right. by left.
      * destruct (validate_chunks_in _ _ _).
        -- left. by eexists.
        -- right. right. eexists. right. by right.
    + right. right. eexists. by left.
  - right. left.
    apply (run_op_no_video w (FinalizeUpload total_chunks) video_id Hv).
Qed.

(** X21: [finish_upload_video_view] never raises.  It answers 204, with
    the success message queued, exactly when the request is a POST with
    a valid form, so with a total of at least one chunk, and
    [finalize_upload] returned; the world is then the one
    [finalize_upload] left.  With any other answer (405, 400 or 404) no
    message is queued and nothing has changed. *)
Theorem finish_view_answers w request id :
  ∃ response messages w',
    exec (finish_upload_video_view request id) w = (Return (response, messages), w') ∧
    (http_status response = 204 →
     messages = [(SUCCESS, "Upload realizado com sucesso.")] ∧
     method request = "POST" ∧
     ∃ n, POST_totalChunks request = Some n ∧ 1 ≤ n ∧
          exec (finalize_upload id n) w = (Return (), w')) ∧
    (http_status response ≠ 204 →
     messages = [] ∧ w' = w ∧
     (http_status response = 405 ∨ http_status response = 400 ∨
      http_status response = 404)).
Proof.
  unfold finish_upload_video_view.
  case_bool_decide as Hmethod.
  { eexists _, _, _. split; [reflexivity|]. cbn. split; [done|]. auto. }
  destruct (VideoChunkFinishUploadForm request) as [errors|cleaned_data] eqn:Hform.
  { eexists _, _, _. split; [reflexivity|]. cbn. split; [done|]. auto. }
  assert (Htotal : POST_totalChunks request = Some (totalChunks cleaned_data) ∧
                   1 ≤ totalChunks cleaned_data).
  { unfold VideoChunkFinishUploadForm, clean_field_totalChunks in Hform.
    destruct (fileName request), (POST_totalChunks request) as [n|];
      try case_decide; try done.
    injection Hform as <-. cbn. split; [done|lia]. }
  destruct Htotal as [Htotal Hpos].
  pose proof (finalize_upload_outcomes w id (totalChunks cleaned_data)) as Hout.
  unfold exec in *. unfold try_except. rewrite run_bind.
  destruct (finalize_upload id (totalChunks cleaned_data) (mkSt idle w)) as [r s] eqn:Hfin.
  destruct Hout as [[w' Hok]|[Hstop|[msg [Hraise|[Hraise|Hraise]]]]].
  - injection Hok as -> <-. eexists _, _, _. split; [reflexivity|]. cbn.
    split; [|done]. intros _. split; [done|]. split; [done|].
    exists (totalChunks cleaned_data). split; [done|]. split; [done|]. by rewrite Hfin.
  - injection Hstop as -> <-. eexists _, _, _. split; [reflexivity|]. cbn.
    split; [done|]. auto.
  - injection Hraise as -> <-. eexists _, _, _. split; [reflexivity|]. cbn.
    split; [done|]. auto.
  - injection Hraise as -> <-. eexists _, _, _. split; [reflexivity|]. cbn.
    split; [done|]. auto.
  - injection Hraise as -> <-. eexists _, _, _. split; [reflexivity|]. cbn.
    split; [done|]. auto.
Qed.
